(** * rc-building-model: ventilation and heat-use calculations

    A shallow embedding of [rcbm/vent.py] and [rc_building_model/htuse.py].

    Numbers.  Python floats are embedded as exact rationals extended with one
    non-finite value ([Np.float]): rounding error is not modelled, and [inf]
    and [nan] are collapsed into [NaN].  The code compares input values
    only, never a quotient, so the collapse cannot change a branch.

    Series.  A pandas Series is an association list of (label, value) rows
    in positional order ([Pd.Series]); arithmetic between two Series aligns
    on the labels the way pandas does, a NumPy array is the list of values.

    Errors.  A Python exception is a value of [exn]; a function that can
    raise returns [result]. *)

From Stdlib Require Import String ZArith QArith Qround List Bool Lia Lqa.
From Stdlib Require Import Permutation Sorted Morphisms Setoid FinFun.
Import ListNotations.

Set Implicit Arguments.

(* ------------------------------------------------------------------ *)
(** ** Exceptions *)

Inductive exn : Type :=
| DivisionByZero (msg : string)
| ValueError (msg : string)
| KeyError (msg : string)
| IndexingError (msg : string).

Definition result (A : Type) : Type := (exn + A)%type.

Definition ret {A} (a : A) : result A := inr a.
Definition raise {A} (e : exn) : result A := inl e.
Definition bind {A B} (m : result A) (k : A -> result B) : result B :=
  match m with
  | inl e => inl e
  | inr a => k a
  end.

Declare Scope result_scope.
Delimit Scope result_scope with result.
Notation "x <- m ;; k" := (bind m (fun x => k))
  (at level 61, m at next level, right associativity) : result_scope.

Definition raises {A} (m : result A) : Prop := exists e, m = inl e.
Definition returns {A} (m : result A) (a : A) : Prop := m = inr a.

(* ------------------------------------------------------------------ *)
(** ** NumPy: float scalars and one-dimensional arrays *)

Module Np.

Inductive float : Type :=
| Fin (q : Q)
| NaN.

Definition lift2 (f : Q -> Q -> Q) (x y : float) : float :=
  match x, y with
  | Fin a, Fin b => Fin (f a b)
  | _, _ => NaN
  end.

Definition add : float -> float -> float := lift2 Qplus.
Definition sub : float -> float -> float := lift2 Qminus.
Definition mul : float -> float -> float := lift2 Qmult.

(** [x / 0] is [inf] or [nan] in NumPy (never an exception): the one
    non-finite value here. *)
Definition div (x y : float) : float :=
  match x, y with
  | Fin a, Fin b => if Qeq_bool b 0 then NaN else Fin (a / b)
  | _, _ => NaN
  end.

(** [x ** n] for an integer literal [n]. *)
Definition power (x : float) (n : Z) : float :=
  match x with
  | Fin a => Fin (Qpower a n)
  | NaN => NaN
  end.

(** Comparisons with [nan] are [False]. *)
Definition gt (x y : float) : bool :=
  match x, y with
  | Fin a, Fin b => negb (Qle_bool a b)
  | _, _ => false
  end.

Definition eqb (x y : float) : bool :=
  match x, y with
  | Fin a, Fin b => Qeq_bool a b
  | _, _ => false
  end.

(** [np.maximum] propagates [nan]. *)
Definition maximum (x y : float) : float :=
  match x, y with
  | Fin a, Fin b => Fin (if Qle_bool a b then b else a)
  | _, _ => NaN
  end.

(** Nearest integer, a tie going to the even neighbour. *)
Definition round_half_even (q : Q) : Z :=
  let f := Qfloor q in
  let d := q - inject_Z f in
  if Qle_bool d (1 # 2)
  then if Qeq_bool d (1 # 2) then (if Z.even f then f else f + 1)%Z else f
  else (f + 1)%Z.

Definition round (x : float) : float :=
  match x with
  | Fin a => Fin (inject_Z (round_half_even a))
  | NaN => NaN
  end.

(** Equality of floats up to the representation of the rational. *)
Definition feq (x y : float) : Prop :=
  match x, y with
  | Fin a, Fin b => a == b
  | NaN, NaN => True
  | _, _ => False
  end.

Definition feqb (x y : float) : bool :=
  match x, y with
  | Fin a, Fin b => Qeq_bool a b
  | NaN, NaN => true
  | _, _ => false
  end.

Definition is_finite (x : float) : bool :=
  match x with
  | Fin _ => true
  | NaN => false
  end.

(** *** Arrays *)

(** [np.tile(a, n)]: the whole array [n] times over. *)
Fixpoint tile {A} (a : list A) (n : nat) : list A :=
  match n with
  | O => []
  | S n' => a ++ tile a n'
  end.

(** [np.repeat(a, n)]: each element [n] times in a row. *)
Definition repeat_each {A} (a : list A) (n : nat) : list A :=
  flat_map (fun x => List.repeat x n) a.

(** Broadcasting of one-dimensional shapes: two lengths agree when they
    are equal or one of them is 1. *)
Definition broadcast_len (n m : nat) : option nat :=
  if Nat.eqb n m then Some n
  else if Nat.eqb n 1 then Some m
  else if Nat.eqb m 1 then Some n
  else None.

Definition broadcast_to {A} (a : list A) (n : nat) : list A :=
  if Nat.eqb (length a) n then a
  else match a with
       | x :: _ => List.repeat x n
       | [] => []
       end.

Definition shape_error : exn :=
  ValueError "operands could not be broadcast together".

(** An elementwise binary operation on two arrays. *)
Definition binop {A B C} (f : A -> B -> C) (a : list A) (b : list B)
  : result (list C) :=
  match broadcast_len (length a) (length b) with
  | Some n =>
      ret (map (fun p => f (fst p) (snd p))
               (combine (broadcast_to a n) (broadcast_to b n)))
  | None => raise shape_error
  end.

(** [np.where(c, a, b)]. *)
Definition where_ {A} (c : list bool) (a b : list A) : result (list A) :=
  match broadcast_len (length c) (length a) with
  | Some n =>
      match broadcast_len n (length b) with
      | Some k =>
          ret (map (fun p : bool * (A * A) =>
                     if fst p then fst (snd p) else snd (snd p))
                   (combine (broadcast_to c k)
                            (combine (broadcast_to a k) (broadcast_to b k))))
      | None => raise shape_error
      end
  | None => raise shape_error
  end.

(** [np.in1d(a, test)]. *)
Definition in1d (a test : list string) : list bool :=
  map (fun x => existsb (String.eqb x) test) a.

Definition all (a : list bool) : bool := forallb (fun b => b) a.

End Np.

Declare Scope float_scope.
Delimit Scope float_scope with float.
Bind Scope float_scope with Np.float.
Notation "x + y" := (Np.add x y) : float_scope.
Notation "x - y" := (Np.sub x y) : float_scope.
Notation "x * y" := (Np.mul x y) : float_scope.
Notation "x / y" := (Np.div x y) : float_scope.
Notation "x == y" := (Np.feq x y) : float_scope.

(** A rational literal read as a float. *)
Coercion Np.Fin : Q >-> Np.float.

(* ------------------------------------------------------------------ *)
(** ** pandas: Series *)

(** What an index needs of its labels: equality and an order to sort by. *)
Class Label (L : Type) : Type := {
  label_eqb : L -> L -> bool;
  label_leb : L -> L -> bool
}.

#[export] Instance Z_Label : Label Z :=
  {| label_eqb := Z.eqb; label_leb := Z.leb |}.

#[export] Instance string_Label : Label string :=
  {| label_eqb := String.eqb; label_leb := String.leb |}.

Module Pd.

Import Np.

(** Rows in positional order; labels may repeat. *)
Definition Series (L A : Type) : Type := list (L * A).

Definition index {L A} (s : Series L A) : list L := map fst s.

(** [s.to_numpy()], [s.values]. *)
Definition values {L A} (s : Series L A) : list A := map snd s.

(** An elementwise operation with a scalar, [s.map(f)]: the index stays. *)
Definition map_values {L A B} (f : A -> B) (s : Series L A) : Series L B :=
  map (fun r => (fst r, f (snd r))) s.

Definition range_index (n : nat) : list Z := map Z.of_nat (seq 0 n).

(** [pd.Series(data)]: a fresh index 0..n-1. *)
Definition of_array {A} (a : list A) : Series Z A :=
  combine (range_index (length a)) a.

(** [pd.Series(data, index=idx)] and [s.index = idx]. *)
Definition of_array_index {L A} (a : list A) (idx : list L)
  : result (Series L A) :=
  if Nat.eqb (length a) (length idx) then ret (combine idx a)
  else raise (ValueError "Length of values does not match length of index").

(** [s.any()] on a boolean Series. *)
Definition any {L} (s : Series L bool) : bool :=
  existsb (fun b => b) (values s).

(** Values in order of first appearance. *)
Fixpoint unique_from {A} (eqb : A -> A -> bool) (seen l : list A) : list A :=
  match l with
  | [] => []
  | x :: l' =>
      if existsb (eqb x) seen then unique_from eqb seen l'
      else x :: unique_from eqb (x :: seen) l'
  end.

(** [s.unique()]. *)
Definition unique {L} (s : Series L string) : list string :=
  unique_from String.eqb [] (values s).

(** [s.map(d)] for a dict [d]: a value that is no key becomes missing. *)
Fixpoint dict_get {K V} (eqb : K -> K -> bool) (d : list (K * V)) (k : K)
  : option V :=
  match d with
  | [] => None
  | (k', v) :: d' => if eqb k k' then Some v else dict_get eqb d' k
  end.

Definition map_dict {L K V} (eqb : K -> K -> bool) (d : list (K * V))
  (s : Series L K) : Series L (option V) :=
  map_values (dict_get eqb d) s.

(** The same on a Series that already has missing values. *)
Definition map_dict_na {L K V} (eqb : K -> K -> bool) (d : list (K * V))
  (s : Series L (option K)) : Series L (option V) :=
  map_values (fun o => match o with
                       | Some k => dict_get eqb d k
                       | None => None
                       end) s.

(** A missing number is [nan]. *)
Definition to_float {L} (s : Series L (option float)) : Series L float :=
  map_values (fun o => match o with
                       | Some x => x
                       | None => NaN
                       end) s.

(** [pd.concat]. *)
Definition concat {L A} (l : list (Series L A)) : Series L A :=
  List.concat l.

(** Sum of the values, missing ones skipped. *)
Definition nansum (a : list float) : float :=
  fold_left (fun acc x => match x with
                          | Fin _ => add acc x
                          | NaN => acc
                          end) a (Fin 0).

(** [s.sum()]. *)
Definition sum {L} (s : Series L float) : float := nansum (values s).

Section Labelled.

Context {L : Type} `{Label L}.

(** [i.equals(j)]. *)
Fixpoint index_equals (i j : list L) : bool :=
  match i, j with
  | [], [] => true
  | x :: i', y :: j' => label_eqb x y && index_equals i' j'
  | _, _ => false
  end.

Fixpoint insert_label (x : L) (l : list L) : list L :=
  match l with
  | [] => [x]
  | y :: l' => if label_leb x y then x :: l else y :: insert_label x l'
  end.

Definition sort_labels (l : list L) : list L := fold_right insert_label [] l.

(** The outer join of two indexes that differ: every label once, sorted. *)
Definition union_index (i j : list L) : list L :=
  sort_labels (unique_from label_eqb [] (i ++ j)).

(** The value at the first row labelled [l], [d] when there is none. *)
Fixpoint get {A} (d : A) (l : L) (s : Series L A) : A :=
  match s with
  | [] => d
  | (l', a) :: s' => if label_eqb l l' then a else get d l s'
  end.

(** [s1 op s2]: row by row when the indexes are equal, otherwise on the
    union of the labels with [nan] where a side has no such row.  The second
    case is modelled for indexes without repeated labels. *)
Definition binop (f : float -> float -> float) (s1 s2 : Series L float)
  : Series L float :=
  if index_equals (index s1) (index s2)
  then map (fun p => (fst (fst p), f (snd (fst p)) (snd (snd p))))
           (combine s1 s2)
  else map (fun l => (l, f (get NaN l s1) (get NaN l s2)))
           (union_index (index s1) (index s2)).

(** [s[mask]] for a boolean Series [mask]: the mask is brought to the index
    of [s] first, and must have a row for each of its labels. *)
Definition getitem_bool {A} (s : Series L A) (mask : Series L bool)
  : result (Series L A) :=
  if index_equals (index mask) (index s)
  then ret (map fst (filter (fun p : (L * A) * (L * bool) => snd (snd p))
                            (combine s mask)))
  else if forallb (fun l => existsb (label_eqb l) (index mask)) (index s)
       then ret (filter (fun r => get false (fst r) mask) s)
       else raise (IndexingError
                     "Unalignable boolean Series provided as indexer").

(** [s.where(cond, other)]: keep the value where [cond] holds, take the one
    of [other] elsewhere. *)
Definition where_ (s : Series L float) (cond : Series L bool)
  (other : Series L float) : Series L float :=
  if index_equals (index cond) (index s)
     && index_equals (index other) (index s)
  then map (fun p : (L * float) * ((L * bool) * (L * float)) =>
              (fst (fst p),
               if snd (fst (snd p)) then snd (fst p) else snd (snd (snd p))))
           (combine s (combine cond other))
  else map (fun r => (fst r, if get false (fst r) cond then snd r
                             else get NaN (fst r) other)) s.

Fixpoint insert_row {A} (r : L * A) (s : Series L A) : Series L A :=
  match s with
  | [] => [r]
  | r' :: s' => if label_leb (fst r) (fst r') then r :: s
                else r' :: insert_row r s'
  end.

(** [s.sort_index()]: rows by increasing label.  Rows of one label stay in
    their positional order here; nothing below depends on that. *)
Definition sort_index {A} (s : Series L A) : Series L A :=
  fold_right insert_row [] s.

(** [s.sum(level=0)]: one row per label, in order of first appearance, the
    sum of its values with missing ones skipped. *)
Definition sum_level0 (s : Series L float) : Series L float :=
  map (fun k => (k, nansum (values (filter (fun r => label_eqb (fst r) k) s))))
      (unique_from label_eqb [] (index s)).

(** [s.loc[labels]]: for each label in turn, every row that carries it; a
    label that no row carries is a [KeyError].  (The code asks for the eight
    heating months of a Series labelled with the twelve months once per
    dwelling: either all eight are there or none is.) *)
Definition loc_list {A} (s : Series L A) (labels : list L)
  : result (Series L A) :=
  if forallb (fun l => existsb (label_eqb l) (index s)) labels
  then ret (flat_map (fun l => filter (fun r => label_eqb (fst r) l) s)
                     labels)
  else raise (KeyError "labels are not in the index").

(** [s.reset_index().groupby("index").cumcount()]: for each row, how many
    earlier rows carry the same label. *)
Fixpoint cumcount_from (seen keys : list L) : list Z :=
  match keys with
  | [] => []
  | k :: ks =>
      Z.of_nat (length (filter (label_eqb k) seen))
      :: cumcount_from (k :: seen) ks
  end.

Definition cumcount {A} (s : Series L A) : list Z :=
  cumcount_from [] (index s).

End Labelled.

End Pd.

(* ------------------------------------------------------------------ *)
(** ** [rcbm/vent.py] *)

Module Vent.

Import Np Pd.
Local Open Scope result_scope.
Local Open Scope float_scope.

Definition zero_volume_message : string :=
  "Please remove buildings with zero volume, otherwise they will have an infinite infiltration rate!".

Definition _calculate_infiltration_rate_due_to_opening
  (no_openings building_volume : Series Z float) (ventilation_rate : float)
  : result (Series Z float) :=
  let is_building_volume_zero :=
    map_values (fun v => Np.eqb v (Fin 0)) building_volume in
  if any is_building_volume_zero
  then raise (DivisionByZero zero_volume_message)
  else ret (binop div
              (map_values (fun n => n * ventilation_rate) no_openings)
              building_volume).

Definition calculate_infiltration_rate_due_to_chimneys
  (no_chimneys building_volume : Series Z float) (ventilation_rate : float)
  : result (Series Z float) :=
  _calculate_infiltration_rate_due_to_opening
    no_chimneys building_volume ventilation_rate.

Definition calculate_infiltration_rate_due_to_open_flues
  (no_chimneys building_volume : Series Z float) (ventilation_rate : float)
  : result (Series Z float) :=
  _calculate_infiltration_rate_due_to_opening
    no_chimneys building_volume ventilation_rate.

Definition calculate_infiltration_rate_due_to_fans
  (no_chimneys building_volume : Series Z float) (ventilation_rate : float)
  : result (Series Z float) :=
  _calculate_infiltration_rate_due_to_opening
    no_chimneys building_volume ventilation_rate.

Definition calculate_infiltration_rate_due_to_room_heaters
  (no_chimneys building_volume : Series Z float) (ventilation_rate : float)
  : result (Series Z float) :=
  _calculate_infiltration_rate_due_to_opening
    no_chimneys building_volume ventilation_rate.

(** The default values of the [ventilation_rate] arguments. *)
Definition chimney_ventilation_rate : float := Fin 40.
Definition open_flue_ventilation_rate : float := Fin 20.
Definition fan_ventilation_rate : float := Fin 10.
Definition room_heater_ventilation_rate : float := Fin 40.

Definition yes_or_no_map : list (string * bool) :=
  [("YES"%string, true); ("NO"%string, false)].

Definition calculate_infiltration_rate_due_to_draught_lobby
  (is_draught_lobby : Series Z string) : Series Z float :=
  to_float
    (map_dict_na Bool.eqb [(true, Fin 0); (false, Fin 0.05)]
       (map_dict String.eqb yes_or_no_map is_draught_lobby)).

Definition calculate_infiltration_rate_due_to_openings
  (building_volume no_chimneys no_open_flues no_fans no_room_heaters
     : Series Z float)
  (is_draught_lobby : Series Z string) : result (Series Z float) :=
  chimneys <- calculate_infiltration_rate_due_to_chimneys
                no_chimneys building_volume chimney_ventilation_rate ;;
  open_flues <- calculate_infiltration_rate_due_to_open_flues
                  no_open_flues building_volume open_flue_ventilation_rate ;;
  fans <- calculate_infiltration_rate_due_to_fans
            no_fans building_volume fan_ventilation_rate ;;
  room_heaters <- calculate_infiltration_rate_due_to_room_heaters
                    no_room_heaters building_volume
                    room_heater_ventilation_rate ;;
  ret (binop add
         (binop add (binop add (binop add chimneys open_flues) fans)
            room_heaters)
         (calculate_infiltration_rate_due_to_draught_lobby is_draught_lobby)).

Definition calculate_infiltration_rate_due_to_height
  (no_storeys : Series Z float) : Series Z float :=
  map_values (fun n => (n - Fin 1) * Fin 0.1) no_storeys.

Definition acceptable_structure_types : list string :=
  ["unknown"; "masonry"; "timber_or_steel"; "concrete"]%string.

Definition structure_type_message : string :=
  "Only ['unknown', 'masonry', 'timber_or_steel', 'concrete'] structure types are supported! Please rename your structure types to match these, or if it is is another type entirely either fork this repository or submit a pull request to implement it!".

(** The default of [unknown_structure_infiltration_rate]. *)
Definition default_unknown_structure_infiltration_rate : float := Fin 0.35.

Definition calculate_infiltration_rate_due_to_structure_type
  (structure_type : Series Z string)
  (unknown_structure_infiltration_rate : float) : result (Series Z float) :=
  if negb (all (in1d (unique structure_type) acceptable_structure_types))
  then raise (ValueError structure_type_message)
  else
    let infiltration_rate_map :=
      [("unknown"%string, unknown_structure_infiltration_rate);
       ("masonry"%string, Fin 0.35);
       ("timber_or_steel"%string, Fin 0.25);
       ("concrete"%string, Fin 0)] in
    ret (to_float (map_dict String.eqb infiltration_rate_map structure_type)).

Definition acceptable_suspended_floor_types : list string :=
  ["none"; "sealed"; "unsealed"]%string.

Definition suspended_floor_message : string :=
  "Only ['none', 'sealed', 'unsealed'] floor types are supported! Please rename your floor types to match these, or if it is is another type entirely either fork this repository or submit a pull request to implement it!".

Definition calculate_infiltration_rate_due_to_suspended_floor
  (is_floor_suspended : Series Z string) : result (Series Z float) :=
  if negb (all (in1d (unique is_floor_suspended)
                  acceptable_suspended_floor_types))
  then raise (ValueError suspended_floor_message)
  else
    let infiltration_rate_map :=
      [("none"%string, Fin 0); ("sealed"%string, Fin 0.1);
       ("unsealed"%string, Fin 0.2)] in
    ret (to_float
           (map_dict String.eqb infiltration_rate_map is_floor_suspended)).

Definition calculate_infiltration_rate_due_to_draught
  (percentage_draught_stripped : Series Z float) : Series Z float :=
  map_values (fun p => Fin 0.25 - Fin 0.2 * (p / Fin 100))
    percentage_draught_stripped.

Definition calculate_infiltration_rate_due_to_structure
  (permeability_test_result no_storeys percentage_draught_stripped
     : Series Z float)
  (is_floor_suspended structure_type : Series Z string)
  : result (Series Z float) :=
  let height := calculate_infiltration_rate_due_to_height no_storeys in
  structure <- calculate_infiltration_rate_due_to_structure_type
                 structure_type default_unknown_structure_infiltration_rate ;;
  floor <- calculate_infiltration_rate_due_to_suspended_floor
             is_floor_suspended ;;
  let draught :=
    calculate_infiltration_rate_due_to_draught percentage_draught_stripped in
  let theoretical_infiltration_rate :=
    binop add (binop add (binop add height structure) floor) draught in
  let infiltration_rate_is_available :=
    map_values (fun p => gt p (Fin 0)) permeability_test_result in
  chosen <- Np.where_ (values infiltration_rate_is_available)
              (values permeability_test_result)
              (values theoretical_infiltration_rate) ;;
  ret (of_array chosen).

Definition calculate_infiltration_rate_adjustment_factor
  (infiltration_rate no_sides_sheltered : Series Z float) : Series Z float :=
  binop mul infiltration_rate
    (map_values (fun n => Fin 1 - n * Fin 0.075) no_sides_sheltered).

Definition calculate_infiltration_rate
  (no_sides_sheltered building_volume no_chimneys no_open_flues no_fans
     no_room_heaters : Series Z float)
  (is_draught_lobby : Series Z string)
  (permeability_test_result no_storeys percentage_draught_stripped
     : Series Z float)
  (is_floor_suspended structure_type : Series Z string)
  : result (Series Z float) :=
  infiltration_rate_due_to_openings <-
    calculate_infiltration_rate_due_to_openings
      building_volume no_chimneys no_open_flues no_fans no_room_heaters
      is_draught_lobby ;;
  infiltration_rate_due_to_structure <-
    calculate_infiltration_rate_due_to_structure
      permeability_test_result no_storeys percentage_draught_stripped
      is_floor_suspended structure_type ;;
  let infiltration_rate :=
    binop add infiltration_rate_due_to_openings
      infiltration_rate_due_to_structure in
  ret (calculate_infiltration_rate_adjustment_factor
         infiltration_rate no_sides_sheltered).

Definition _calculate_natural_ventilation_air_rate_change
  (infiltration_rate : Series Z float) : Series Z float :=
  where_ infiltration_rate
    (map_values (fun x => gt x (Fin 1)) infiltration_rate)
    (map_values (fun x => Fin 0.5 + power x 2 * Fin 0.5) infiltration_rate).

Definition _calculate_loft_ventilation_air_rate_change
  (infiltration_rate building_volume : Series Z float) : Series Z float :=
  binop add
    (_calculate_natural_ventilation_air_rate_change infiltration_rate)
    (map_values (fun v => Fin 20 / v) building_volume).

(** [np.maximum] of a list of [len(infiltration_rate)] halves and a Series:
    the result keeps the index of the Series. *)
Definition _calculate_outside_ventilation_air_rate_change
  (infiltration_rate : Series Z float) : Series Z float :=
  map (fun p : float * (Z * float) =>
         (fst (snd p), maximum (fst p) (snd (snd p))))
      (combine (List.repeat (Fin 0.5) (length infiltration_rate))
               (map_values (fun x => x + Fin 0.25) infiltration_rate)).

Definition _calculate_mech_ventilation_air_rate_change
  (infiltration_rate : Series Z float) : Series Z float :=
  map_values (fun x => x + Fin 0.5) infiltration_rate.

Definition _calculate_heat_recovery_ventilation_air_rate_change
  (infiltration_rate heat_exchanger_efficiency : Series Z float)
  : Series Z float :=
  binop add infiltration_rate
    (map_values (fun e => Fin 0.5 * (Fin 1 - e / Fin 100))
       heat_exchanger_efficiency).

Definition acceptable_ventilation_methods : list string :=
  ["positive_input_ventilation_from_loft";
   "natural_ventilation";
   "mechanical_ventilation_no_heat_recovery";
   "mechanical_ventilation_heat_recovery";
   "positive_input_ventilation_from_outside"]%string.

Definition ventilation_method_message : string :=
  "Only ['positive_input_ventilation_from_loft', 'natural_ventilation', 'mechanical_ventilation_no_heat_recovery', 'mechanical_ventilation_heat_recovery', 'positive_input_ventilation_from_outside'] ventilation methods are supported! Please rename your ventilation methods to match these, or if it is is another method entirely either fork this repository or submit a pull request to implement it!".

(** [ventilation_method == name]. *)
Definition method_is (name : string) (ventilation_method : Series Z string)
  : Series Z bool :=
  map_values (fun m => String.eqb m name) ventilation_method.

Definition calculate_effective_air_rate_change
  (ventilation_method : Series Z string)
  (building_volume infiltration_rate heat_exchanger_efficiency
     : Series Z float) : result (Series Z float) :=
  if negb (all (in1d (unique ventilation_method)
                  acceptable_ventilation_methods))
  then raise (ValueError ventilation_method_message)
  else
    let is_natural := method_is "natural_ventilation" ventilation_method in
    let is_loft :=
      method_is "positive_input_ventilation_from_loft" ventilation_method in
    let is_outside :=
      method_is "positive_input_ventilation_from_outside"
        ventilation_method in
    let is_mechanical :=
      method_is "mechanical_ventilation_no_heat_recovery"
        ventilation_method in
    let is_heat_recovery :=
      method_is "mechanical_ventilation_heat_recovery" ventilation_method in
    natural_rate <- getitem_bool infiltration_rate is_natural ;;
    let natural :=
      _calculate_natural_ventilation_air_rate_change natural_rate in
    loft_rate <- getitem_bool infiltration_rate is_loft ;;
    loft_volume <- getitem_bool building_volume is_loft ;;
    let loft :=
      _calculate_loft_ventilation_air_rate_change loft_rate loft_volume in
    outside_rate <- getitem_bool infiltration_rate is_outside ;;
    let outside :=
      _calculate_outside_ventilation_air_rate_change outside_rate in
    mechanical_rate <- getitem_bool infiltration_rate is_mechanical ;;
    let mechanical :=
      _calculate_mech_ventilation_air_rate_change mechanical_rate in
    heat_recovery_rate <- getitem_bool infiltration_rate is_heat_recovery ;;
    heat_recovery_efficiency <-
      getitem_bool heat_exchanger_efficiency is_heat_recovery ;;
    let heat_recovery :=
      _calculate_heat_recovery_ventilation_air_rate_change
        heat_recovery_rate heat_recovery_efficiency in
    ret (sort_index
           (concat [natural; loft; outside; mechanical; heat_recovery])).

(** The default of [ventilation_heat_loss_constant]. *)
Definition default_ventilation_heat_loss_constant : float := Fin 0.33.

Definition calculate_ventilation_heat_loss
  (building_volume effective_air_rate_change : Series Z float)
  (ventilation_heat_loss_constant : float) : Series Z float :=
  binop mul
    (map_values (fun v => v * ventilation_heat_loss_constant) building_volume)
    effective_air_rate_change.

End Vent.

(* ------------------------------------------------------------------ *)
(** ** The dwelling table

    The functions above take one Series per attribute.  A population is a
    table with one row per dwelling and one column per attribute, so that
    all columns share the index of the table. *)

Module Stock.

Import Np Pd.

Record dwelling : Type := {
  no_sides_sheltered : float;
  building_volume : float;
  no_chimneys : float;
  no_open_flues : float;
  no_fans : float;
  no_room_heaters : float;
  is_draught_lobby : string;
  permeability_test_result : float;
  no_storeys : float;
  percentage_draught_stripped : float;
  is_floor_suspended : string;
  structure_type : string;
  ventilation_method : string;
  heat_exchanger_efficiency : float;
  infiltration_rate : float
}.

Definition table : Type := Series Z dwelling.

(** The column of attribute [f]. *)
Definition col {L D A} (f : D -> A) (t : Series L D) : Series L A :=
  map_values f t.

(** The table of the rows [ds] under the default index 0..n-1. *)
Definition of_rows (ds : list dwelling) : table := of_array ds.

Definition calculate_infiltration_rate (t : table) : result (Series Z float) :=
  Vent.calculate_infiltration_rate
    (col no_sides_sheltered t) (col building_volume t) (col no_chimneys t)
    (col no_open_flues t) (col no_fans t) (col no_room_heaters t)
    (col is_draught_lobby t) (col permeability_test_result t)
    (col no_storeys t) (col percentage_draught_stripped t)
    (col is_floor_suspended t) (col structure_type t).

Definition calculate_infiltration_rate_due_to_openings (t : table)
  : result (Series Z float) :=
  Vent.calculate_infiltration_rate_due_to_openings
    (col building_volume t) (col no_chimneys t) (col no_open_flues t)
    (col no_fans t) (col no_room_heaters t) (col is_draught_lobby t).

Definition calculate_infiltration_rate_due_to_structure (t : table)
  : result (Series Z float) :=
  Vent.calculate_infiltration_rate_due_to_structure
    (col permeability_test_result t) (col no_storeys t)
    (col percentage_draught_stripped t) (col is_floor_suspended t)
    (col structure_type t).

Definition calculate_effective_air_rate_change (t : table)
  : result (Series Z float) :=
  Vent.calculate_effective_air_rate_change
    (col ventilation_method t) (col building_volume t)
    (col infiltration_rate t) (col heat_exchanger_efficiency t).

End Stock.

(* ------------------------------------------------------------------ *)
(** ** [rc_building_model/htuse.py] *)

Module Htuse.

Import Np Pd.
Local Open Scope result_scope.
Local Open Scope float_scope.

Definition months : list string :=
  ["jan"; "feb"; "mar"; "apr"; "may"; "jun";
   "jul"; "aug"; "sep"; "oct"; "nov"; "dec"]%string.

(** A reference series: twelve values under the month labels. *)
Definition monthly (vals : list Q) : Series string float :=
  combine months (map Fin vals).

Definition ADJUSTED_MONTHLY_INTERNAL_TEMPERATURE : Series string float :=
  monthly [17.72; 17.73; 17.85; 17.95; 18.15; 18.35;
           18.50; 18.48; 18.33; 18.11; 17.88; 17.77]%Q.

Definition MEAN_MONTHLY_EXTERNAL_TEMPERATURE : Series string float :=
  monthly [5.3; 5.5; 7.0; 8.3; 11.0; 13.5;
           15.5; 15.2; 13.3; 10.4; 7.5; 6.0]%Q.

Definition DELTA_T_BY_MONTH : Series string float :=
  binop sub ADJUSTED_MONTHLY_INTERNAL_TEMPERATURE
    MEAN_MONTHLY_EXTERNAL_TEMPERATURE.

Definition HOURS_PER_MONTH : Series string float :=
  monthly (map (fun d => d * 24)%Q
             [31; 28; 31; 30; 31; 30; 31; 31; 30; 31; 30; 31]%Q).

Definition DAYS_PER_MONTH : Series string float :=
  monthly [31; 28; 31; 30; 31; 30; 31; 31; 30; 31; 30; 31]%Q.

Definition MEAN_MONTHLY_SOLAR_GAINS : Series string float :=
  monthly [0.63; 1.12; 1.7; 2.35; 2.96; 2.99;
           2.79; 2.54; 1.99; 1.37; 0.8; 0.55]%Q.

Definition UTILISATION_FACTOR : Series string float :=
  monthly [0.99; 0.97; 0.91; 0.78; 0.55; 0.38;
           0.25; 0.29; 0.51; 0.83; 0.97; 0.99]%Q.

Definition _calculate_heat_loss_kwh
  (heat_loss_coefficient : Series Z float)
  (delta_t hours : Series string float) : result (list float) :=
  let broadcasted_delta_t :=
    tile (values delta_t) (length heat_loss_coefficient) in
  let broadcasted_hours_per_month :=
    tile (values hours) (length heat_loss_coefficient) in
  let broadcasted_heat_loss_coefficient :=
    repeat_each (values heat_loss_coefficient) (length hours) in
  heat_loss_w <- Np.binop mul broadcasted_heat_loss_coefficient
                   broadcasted_delta_t ;;
  let w_to_kwh := Fin 1 / Fin 1000 in
  Np.binop mul (map (fun x => x * w_to_kwh) heat_loss_w)
    broadcasted_hours_per_month.

Definition heating_months : list string :=
  ["jan"; "feb"; "mar"; "apr"; "may"; "oct"; "nov"; "dec"]%string.

Definition calculate_heat_loss_per_year
  (heat_loss_coefficient : Series Z float)
  (delta_t hours : Series string float) : result (Series Z float) :=
  heat_loss_kwh <-
    _calculate_heat_loss_kwh heat_loss_coefficient delta_t hours ;;
  by_month <- of_array_index heat_loss_kwh
                (tile months (length heat_loss_coefficient)) ;;
  heat_loss_kwh_for_heating_months <- loc_list by_month heating_months ;;
  let new_index := cumcount heat_loss_kwh_for_heating_months in
  reindexed <- of_array_index (values heat_loss_kwh_for_heating_months)
                 new_index ;;
  ret (map_values round (sum_level0 reindexed)).

(** The default of [light_gain_value]. *)
Definition default_light_gain_value : float := Fin 8.

Definition calculate_useful_gains_per_year
  (floor_area window_area : Series Z float)
  (mean_monthly_solar_gains : Series string float)
  (light_gain_value : float) : Series Z float :=
  let total := sum (binop mul mean_monthly_solar_gains UTILISATION_FACTOR) in
  let solar_gain_kwh :=
    map_values (fun x => x * total)
      (map_values (fun w => w / Fin 6) window_area) in
  let solar_gain_w :=
    map_values (fun x => x * Fin 1000 / Fin 24) solar_gain_kwh in
  let light_gains := map_values (fun a => a * light_gain_value) floor_area in
  binop add solar_gain_w light_gains.

Definition calculate_heat_use
  (monthly_heat_loss monthly_useful_gains : Series Z float)
  : Series Z float :=
  let monthly_heat_use_w :=
    map_values (fun x => x / Fin 0.913)
      (binop sub monthly_heat_loss monthly_useful_gains) in
  map_values (fun x => x / Fin 1000 * Fin 24 * Fin 243) monthly_heat_use_w.

End Htuse.

(* ================================================================== *)
(** * What is proved about the code *)

Import Np Pd.

(** ** Readings of a Series *)

(** Two Series agree: same labels, values equal as numbers. *)
Definition series_feq {L} (s1 s2 : Series L float) : Prop :=
  Forall2 (fun r1 r2 => fst r1 = fst r2 /\ feq (snd r1) (snd r2)) s1 s2.

Definition label_le {A} (r1 r2 : Z * A) : Prop := (fst r1 <= fst r2)%Z.
Definition label_lt {A} (r1 r2 : Z * A) : Prop := (fst r1 < fst r2)%Z.

(** [x] is one of the accepted values. *)
Definition accepted (acceptable : list string) (x : string) : bool :=
  existsb (String.eqb x) acceptable.

(* ------------------------------------------------------------------ *)
(** ** The ventilation pipeline, one dwelling at a time

    What each stage computes for a single row of the table, read off the
    Series expressions of [vent.py]. *)

Module Dwelling.

Import Stock.
Local Open Scope float_scope.

Definition of_missing (o : option float) : float :=
  match o with
  | Some x => x
  | None => NaN
  end.

Definition opening (no_openings volume ventilation_rate : float) : float :=
  no_openings * ventilation_rate / volume.

Definition draught_lobby (flag : string) : float :=
  of_missing
    match dict_get String.eqb Vent.yes_or_no_map flag with
    | Some b => dict_get Bool.eqb [(true, Fin 0); (false, Fin 0.05)] b
    | None => None
    end.

Definition openings (d : dwelling) : float :=
  opening (no_chimneys d) (building_volume d) Vent.chimney_ventilation_rate
  + opening (no_open_flues d) (building_volume d)
      Vent.open_flue_ventilation_rate
  + opening (no_fans d) (building_volume d) Vent.fan_ventilation_rate
  + opening (no_room_heaters d) (building_volume d)
      Vent.room_heater_ventilation_rate
  + draught_lobby (is_draught_lobby d).

Definition structure_type_rate (unknown_rate : float) (kind : string)
  : float :=
  of_missing
    (dict_get String.eqb
       [("unknown"%string, unknown_rate); ("masonry"%string, Fin 0.35);
        ("timber_or_steel"%string, Fin 0.25); ("concrete"%string, Fin 0)]
       kind).

Definition suspended_floor_rate (kind : string) : float :=
  of_missing
    (dict_get String.eqb
       [("none"%string, Fin 0); ("sealed"%string, Fin 0.1);
        ("unsealed"%string, Fin 0.2)]
       kind).

Definition theoretical (d : dwelling) : float :=
  (no_storeys d - Fin 1) * Fin 0.1
  + structure_type_rate Vent.default_unknown_structure_infiltration_rate
      (structure_type d)
  + suspended_floor_rate (is_floor_suspended d)
  + (Fin 0.25 - Fin 0.2 * (percentage_draught_stripped d / Fin 100)).

Definition structure (d : dwelling) : float :=
  if gt (permeability_test_result d) (Fin 0)
  then permeability_test_result d
  else theoretical d.

Definition shelter_factor (d : dwelling) : float :=
  Fin 1 - no_sides_sheltered d * Fin 0.075.

Definition natural (x : float) : float :=
  if gt x (Fin 1) then x else Fin 0.5 + power x 2 * Fin 0.5.

Definition effective (d : dwelling) : float :=
  let m := ventilation_method d in
  if String.eqb m "natural_ventilation" then natural (infiltration_rate d)
  else if String.eqb m "positive_input_ventilation_from_loft"
  then natural (infiltration_rate d) + Fin 20 / building_volume d
  else if String.eqb m "positive_input_ventilation_from_outside"
  then maximum (Fin 0.5) (infiltration_rate d + Fin 0.25)
  else if String.eqb m "mechanical_ventilation_no_heat_recovery"
  then infiltration_rate d + Fin 0.5
  else infiltration_rate d
       + Fin 0.5 * (Fin 1 - heat_exchanger_efficiency d / Fin 100).

End Dwelling.

Definition volume_is_zero (d : Stock.dwelling) : bool :=
  Np.eqb (Stock.building_volume d) (Fin 0).

Definition structure_type_ok (d : Stock.dwelling) : bool :=
  accepted Vent.acceptable_structure_types (Stock.structure_type d).

Definition suspended_floor_ok (d : Stock.dwelling) : bool :=
  accepted Vent.acceptable_suspended_floor_types (Stock.is_floor_suspended d).

Definition ventilation_method_ok (d : Stock.dwelling) : bool :=
  accepted Vent.acceptable_ventilation_methods (Stock.ventilation_method d).

(** *** Stage 4, group by group *)

(** The rows of the table whose ventilation method is [name]. *)
Definition method_group (name : string) (t : Stock.table) : Stock.table :=
  filter (fun r => String.eqb (Stock.ventilation_method (snd r)) name) t.

Definition effective_groups (t : Stock.table) : list (Series Z float) :=
  [map_values (fun d => Dwelling.natural (Stock.infiltration_rate d))
     (method_group "natural_ventilation" t);
   map_values
     (fun d => (Dwelling.natural (Stock.infiltration_rate d)
                + Fin 20 / Stock.building_volume d)%float)
     (method_group "positive_input_ventilation_from_loft" t);
   map_values
     (fun d => maximum (Fin 0.5) (Stock.infiltration_rate d + Fin 0.25)%float)
     (method_group "positive_input_ventilation_from_outside" t);
   map_values (fun d => (Stock.infiltration_rate d + Fin 0.5)%float)
     (method_group "mechanical_ventilation_no_heat_recovery" t);
   map_values
     (fun d => (Stock.infiltration_rate d
                + Fin 0.5
                  * (Fin 1 - Stock.heat_exchanger_efficiency d / Fin 100))%float)
     (method_group "mechanical_ventilation_heat_recovery" t)].

(** *** The heat-loss array, dwelling by dwelling *)

(** The twelve entries of the array that belong to one dwelling. *)
Definition kwh_row (dtv hsv : list float) (c : float) : list float :=
  map (fun p => (fst p * snd p)%float)
    (combine
       (map (fun x => (x * (Fin 1 / Fin 1000))%float)
          (map (fun p => (fst p * snd p)%float)
             (combine (List.repeat c (length hsv)) dtv)))
       hsv).

(** The number a monthly reference series holds for month [m]. *)
Definition month_value (s : Series string float) (m : string) : Q :=
  match get NaN m s with
  | Fin q => q
  | NaN => 0
  end.

(** The heat loss of one dwelling in one month, as the array holds it. *)
Definition month_kwh (dq hq : list Q) (c : Q) (m : string) : float :=
  Fin (c * month_value (Htuse.monthly dq) m * (1 / 1000)
       * month_value (Htuse.monthly hq) m).

(** The twelve rows of one dwelling under the month labels. *)
Definition month_block (dq hq : list Q) (c : Q) : Series string float :=
  combine Htuse.months
    (kwh_row (values (Htuse.monthly dq)) (values (Htuse.monthly hq)) (Fin c)).

(* ------------------------------------------------------------------ *)
(** ** The specification's formulas, one dwelling at a time *)

Module Spec.

Import Stock.
Local Open Scope float_scope.

Definition positive (x : float) : Prop :=
  match x with
  | Fin q => (0 < q)%Q
  | NaN => False
  end.

Definition non_positive (x : float) : Prop :=
  match x with
  | Fin q => (q <= 0)%Q
  | NaN => False
  end.

Definition is_zero (x : float) : Prop := feq x (Fin 0).

(** Structure-type lookup {unknown: 0.35, masonry: 0.35,
    timber_or_steel: 0.25, concrete: 0}. *)
Definition structure_type_rate (kind : string) : float :=
  if String.eqb kind "unknown" then Fin 0.35
  else if String.eqb kind "masonry" then Fin 0.35
  else if String.eqb kind "timber_or_steel" then Fin 0.25
  else if String.eqb kind "concrete" then Fin 0
  else NaN.

(** Suspended-floor lookup {none: 0, sealed: 0.1, unsealed: 0.2}. *)
Definition suspended_floor_rate (kind : string) : float :=
  if String.eqb kind "none" then Fin 0
  else if String.eqb kind "sealed" then Fin 0.1
  else if String.eqb kind "unsealed" then Fin 0.2
  else NaN.

(** (storeys - 1) x 0.1 + structure-type rate + suspended-floor rate
    + (0.25 - 0.2 x pct / 100). *)
Definition theoretical_structure (d : dwelling) : float :=
  (no_storeys d - Fin 1) * Fin 0.1
  + structure_type_rate (structure_type d)
  + suspended_floor_rate (is_floor_suspended d)
  + (Fin 0.25 - Fin 0.2 * percentage_draught_stripped d / Fin 100).

(** A flat 0.05 if the draught lobby is absent, 0 if present. *)
Definition draught_lobby (flag : string) : float :=
  if String.eqb flag "YES" then Fin 0
  else if String.eqb flag "NO" then Fin 0.05
  else NaN.

(** chimneys x 40 / volume + open flues x 20 / volume + fans x 10 / volume
    + room heaters x 40 / volume + draught lobby. *)
Definition openings (d : dwelling) : float :=
  no_chimneys d * Fin 40 / building_volume d
  + no_open_flues d * Fin 20 / building_volume d
  + no_fans d * Fin 10 / building_volume d
  + no_room_heaters d * Fin 40 / building_volume d
  + draught_lobby (is_draught_lobby d).

(** The measured result where it is positive, the theoretical sum
    elsewhere. *)
Definition structure (d : dwelling) : float :=
  if gt (permeability_test_result d) (Fin 0)
  then permeability_test_result d
  else theoretical_structure d.

(** (openings + structure) x (1 - sheltered sides x 0.075). *)
Definition infiltration_rate (d : dwelling) : float :=
  (openings d + structure d) * (Fin 1 - no_sides_sheltered d * Fin 0.075).

(** The natural-ventilation formula on a finite rate. *)
Definition natural (x : Q) : Q :=
  if Qlt_le_dec 1 x then x else (0.5 + 0.5 * (x * x))%Q.

(** The condition under which the specification has
    [calculate_infiltration_rate] raise. *)
Definition invalid_input (t : table) : Prop :=
  Exists (fun d => non_positive (building_volume d)) (values t)
  \/ Exists (fun d => ~ In (structure_type d) Vent.acceptable_structure_types)
       (values t)
  \/ Exists (fun d => ~ In (is_floor_suspended d)
                        Vent.acceptable_suspended_floor_types) (values t)
  \/ Exists (fun d => ~ In (ventilation_method d)
                        Vent.acceptable_ventilation_methods) (values t).

End Spec.

(* ------------------------------------------------------------------ *)
(** ** The specification's formulas of the heat-transfer component *)

Module HtSpec.

Local Open Scope Q_scope.

(** The sum of [f] over the months [ms]. *)
Definition sum_over (ms : list string) (f : string -> Q) : Q :=
  fold_right (fun m acc => f m + acc) 0 ms.

(** Sum over the eight heating-season months of
    coefficient x delta_T x hours / 1000. *)
Definition heat_loss_kwh (c : Q) (delta_t hours : Series string float) : Q :=
  sum_over Htuse.heating_months
    (fun m => c * month_value delta_t m * month_value hours m / 1000).

(** (window_area / 6) x sum over the twelve months of
    (solar gain x utilisation factor) x 1000 / 24
    + floor_area x light_gain_value. *)
Definition useful_gains (floor_area window_area : float)
  (solar : Series string float) (light_gain_value : float) : float :=
  (window_area / Fin 6
   * Fin (sum_over Htuse.months
            (fun m => (month_value solar m
                       * month_value Htuse.UTILISATION_FACTOR m)%Q))
   * Fin 1000 / Fin 24
   + floor_area * light_gain_value)%float.

(** (heat_loss - useful_gains) / 0.913 x 24 x 243 / 1000. *)
Definition heat_use (heat_loss useful_gains : float) : float :=
  ((heat_loss - useful_gains) / Fin 0.913 * Fin 24 * Fin 243
   / Fin 1000)%float.

End HtSpec.

(* ------------------------------------------------------------------ *)
(** ** Example dwellings *)

Module Examples.

Import Stock.

Definition terrace : dwelling := {|
  no_sides_sheltered := Fin 2;
  building_volume := Fin 300;
  no_chimneys := Fin 1;
  no_open_flues := Fin 0;
  no_fans := Fin 2;
  no_room_heaters := Fin 0;
  is_draught_lobby := "NO";
  permeability_test_result := Fin 0;
  no_storeys := Fin 2;
  percentage_draught_stripped := Fin 50;
  is_floor_suspended := "none";
  structure_type := "masonry";
  ventilation_method := "natural_ventilation";
  heat_exchanger_efficiency := Fin 0;
  infiltration_rate := Fin 0.8
|}.

(** The same dwelling with a measured permeability. *)
Definition tested : dwelling := {|
  no_sides_sheltered := Fin 2;
  building_volume := Fin 300;
  no_chimneys := Fin 1;
  no_open_flues := Fin 0;
  no_fans := Fin 2;
  no_room_heaters := Fin 0;
  is_draught_lobby := "YES";
  permeability_test_result := Fin 0.45;
  no_storeys := Fin 3;
  percentage_draught_stripped := Fin 100;
  is_floor_suspended := "unsealed";
  structure_type := "timber_or_steel";
  ventilation_method := "mechanical_ventilation_heat_recovery";
  heat_exchanger_efficiency := Fin 80;
  infiltration_rate := Fin 1.5
|}.

Definition with_volume (v : float) (d : dwelling) : dwelling := {|
  no_sides_sheltered := no_sides_sheltered d;
  building_volume := v;
  no_chimneys := no_chimneys d;
  no_open_flues := no_open_flues d;
  no_fans := no_fans d;
  no_room_heaters := no_room_heaters d;
  is_draught_lobby := is_draught_lobby d;
  permeability_test_result := permeability_test_result d;
  no_storeys := no_storeys d;
  percentage_draught_stripped := percentage_draught_stripped d;
  is_floor_suspended := is_floor_suspended d;
  structure_type := structure_type d;
  ventilation_method := ventilation_method d;
  heat_exchanger_efficiency := heat_exchanger_efficiency d;
  infiltration_rate := infiltration_rate d
|}.

Definition with_method (m : string) (d : dwelling) : dwelling := {|
  no_sides_sheltered := no_sides_sheltered d;
  building_volume := building_volume d;
  no_chimneys := no_chimneys d;
  no_open_flues := no_open_flues d;
  no_fans := no_fans d;
  no_room_heaters := no_room_heaters d;
  is_draught_lobby := is_draught_lobby d;
  permeability_test_result := permeability_test_result d;
  no_storeys := no_storeys d;
  percentage_draught_stripped := percentage_draught_stripped d;
  is_floor_suspended := is_floor_suspended d;
  structure_type := structure_type d;
  ventilation_method := m;
  heat_exchanger_efficiency := heat_exchanger_efficiency d;
  infiltration_rate := infiltration_rate d
|}.

(** Two dwellings under the default index 0, 1. *)
Definition street : table := of_rows [terrace; tested].

(** The same two dwellings under the labels 10, 11, as a table is after
    rows were dropped from a larger survey. *)
Definition relabelled : table := [(10%Z, terrace); (11%Z, tested)].

(** One dwelling of each ventilation method, labels in increasing order. *)
Definition five_methods : table :=
  [(3%Z, with_method "positive_input_ventilation_from_outside" terrace);
   (4%Z, with_method "mechanical_ventilation_heat_recovery" tested);
   (7%Z, with_method "natural_ventilation" terrace);
   (8%Z, with_method "positive_input_ventilation_from_loft" tested);
   (9%Z, with_method "mechanical_ventilation_no_heat_recovery" terrace)].

End Examples.

(* ------------------------------------------------------------------ *)
(** ** Further readings used by the properties beyond the claims *)

(** A float that is a number, at least [lo]. *)
Definition at_least (lo : Q) (x : float) : Prop :=
  match x with
  | Fin q => (lo <= q)%Q
  | NaN => False
  end.

(** A float that is a number between [lo] and [hi]. *)
Definition within (lo hi : Q) (x : float) : Prop :=
  match x with
  | Fin q => (lo <= q /\ q <= hi)%Q
  | NaN => False
  end.

(** The number a float holds, 0 for a missing one. *)
Definition finite_part (x : float) : Q :=
  match x with
  | Fin q => q
  | NaN => 0
  end.

(** The heat loss of one dwelling in one month for any coefficient, a
    missing one included. *)
Definition month_kwh_of (dq hq : list Q) (c : float) (m : string) : float :=
  (c * Fin (month_value (Htuse.monthly dq) m) * (Fin 1 / Fin 1000)
   * Fin (month_value (Htuse.monthly hq) m))%float.

Definition month_block_of (dq hq : list Q) (c : float)
  : Series string float :=
  combine Htuse.months
    (kwh_row (values (Htuse.monthly dq)) (values (Htuse.monthly hq)) c).

(** The structure type with "unknown" read as "masonry". *)
Definition unknown_as_masonry (kind : string) : string :=
  if String.eqb kind "unknown" then "masonry"%string else kind.

(* ================================================================== *)
(** * Proofs *)

(** ** The error monad *)

Lemma bind_ret {A B} (a : A) (k : A -> result B) : bind (ret a) k = k a.
Proof. reflexivity. Qed.

Lemma bind_raise {A B} (e : exn) (k : A -> result B) :
  bind (raise e) k = raise e.
Proof. reflexivity. Qed.

Lemma raises_inl {A} (e : exn) : raises (inl e : result A).
Proof. exists e; reflexivity. Qed.

Lemma not_raises_inr {A} (a : A) : ~ raises (inr a : result A).
Proof. intros [e He]; discriminate He. Qed.

(** ** Floats *)

#[export] Instance feq_Equivalence : Equivalence feq.
Proof.
  split.
  - intros [a|]; simpl; [reflexivity | exact I].
  - intros [a|] [b|]; simpl; auto. intros E; symmetry; exact E.
  - intros [a|] [b|] [c|]; simpl; try tauto.
    intros E1 E2; rewrite E1; exact E2.
Qed.

Lemma feqb_feq (x y : float) : feqb x y = true <-> feq x y.
Proof.
  destruct x as [a|], y as [b|]; simpl; try (split; [discriminate | tauto]).
  - apply Qeq_bool_iff.
  - split; auto.
Qed.


Lemma series_feq_refl {L} (s : Series L float) : series_feq s s.
Proof.
  induction s as [|r s IH]; constructor; auto. split; reflexivity.
Qed.

Lemma series_feq_map_values {L D} (f g : D -> float) (t : Series L D) :
  (forall r, In r t -> feq (f (snd r)) (g (snd r))) ->
  series_feq (map_values f t) (map_values g t).
Proof.
  induction t as [|r t IH]; intros Hfg; simpl; constructor.
  - split; [reflexivity | apply Hfg; left; reflexivity].
  - apply IH. intros r' Hr'. apply Hfg; right; exact Hr'.
Qed.

Lemma series_feq_index {L} (s1 s2 : Series L float) :
  series_feq s1 s2 -> index s1 = index s2.
Proof.
  induction 1 as [|r1 r2 s1 s2 [E _] _ IH]; simpl; congruence.
Qed.

Lemma series_feq_length {L} (s1 s2 : Series L float) :
  series_feq s1 s2 -> length s1 = length s2.
Proof. apply Forall2_length. Qed.

(** ** Series built from one table *)

Lemma index_map_values {L A B} (f : A -> B) (s : Series L A) :
  index (map_values f s) = index s.
Proof.
  unfold index, map_values. rewrite map_map. reflexivity.
Qed.

Lemma values_map_values {L A B} (f : A -> B) (s : Series L A) :
  values (map_values f s) = map f (values s).
Proof.
  unfold values, map_values. rewrite !map_map. reflexivity.
Qed.

Lemma length_map_values {L A B} (f : A -> B) (s : Series L A) :
  length (map_values f s) = length s.
Proof. apply length_map. Qed.

Lemma map_values_map_values {L A B C} (f : A -> B) (g : B -> C)
  (s : Series L A) :
  map_values g (map_values f s) = map_values (fun a => g (f a)) s.
Proof.
  unfold map_values. rewrite map_map. reflexivity.
Qed.

Lemma map_values_ext_in {L A B} (f g : A -> B) (s : Series L A) :
  (forall r, In r s -> f (snd r) = g (snd r)) ->
  map_values f s = map_values g s.
Proof.
  intros Hfg. apply map_ext_in. intros r Hr. rewrite (Hfg r Hr). reflexivity.
Qed.

Lemma any_map_values {L A} (p : A -> bool) (s : Series L A) :
  any (map_values p s) = existsb p (values s).
Proof.
  unfold any. rewrite values_map_values.
  induction (values s) as [|a l IH]; simpl; [reflexivity | now rewrite IH].
Qed.

Section LawfulLabels.

Context {L : Type} `{Label L}.
Hypothesis label_eqb_refl : forall x : L, label_eqb x x = true.

Lemma index_equals_refl (i : list L) : index_equals i i = true.
Proof.
  induction i as [|x i IH]; simpl; [reflexivity|].
  rewrite label_eqb_refl, IH. reflexivity.
Qed.

Lemma binop_map_values {D} (f : float -> float -> float)
  (g1 g2 : D -> float) (t : Series L D) :
  binop f (map_values g1 t) (map_values g2 t)
  = map_values (fun d => f (g1 d) (g2 d)) t.
Proof.
  unfold binop. rewrite !index_map_values, index_equals_refl.
  induction t as [|r t IH]; simpl; [reflexivity | now rewrite IH].
Qed.

Lemma getitem_bool_map_values {D A} (g : D -> A) (m : D -> bool)
  (t : Series L D) :
  getitem_bool (map_values g t) (map_values m t)
  = ret (map_values g (filter (fun r => m (snd r)) t)).
Proof.
  unfold getitem_bool. rewrite !index_map_values, index_equals_refl.
  unfold ret. f_equal.
  induction t as [|r t IH]; simpl; [reflexivity|].
  destruct (m (snd r)); simpl; now rewrite IH.
Qed.

Lemma where_map_values {D} (g : D -> float) (c : D -> bool)
  (o : D -> float) (t : Series L D) :
  where_ (map_values g t) (map_values c t) (map_values o t)
  = map_values (fun d => if c d then g d else o d) t.
Proof.
  unfold where_. rewrite !index_map_values, index_equals_refl. simpl.
  induction t as [|r t IH]; simpl; [reflexivity | now rewrite IH].
Qed.

End LawfulLabels.

(** The same for the integer-labelled Series of a dwelling table. *)

Lemma binop_cols {D} (f : float -> float -> float) (g1 g2 : D -> float)
  (t : Series Z D) :
  binop f (map_values g1 t) (map_values g2 t)
  = map_values (fun d => f (g1 d) (g2 d)) t.
Proof. apply binop_map_values, Z.eqb_refl. Qed.

Lemma getitem_bool_cols {D A} (g : D -> A) (m : D -> bool) (t : Series Z D) :
  getitem_bool (map_values g t) (map_values m t)
  = ret (map_values g (filter (fun r => m (snd r)) t)).
Proof. apply getitem_bool_map_values, Z.eqb_refl. Qed.

Lemma where_cols {D} (g : D -> float) (c : D -> bool) (o : D -> float)
  (t : Series Z D) :
  where_ (map_values g t) (map_values c t) (map_values o t)
  = map_values (fun d => if c d then g d else o d) t.
Proof. apply where_map_values, Z.eqb_refl. Qed.

(** ** NumPy arrays of one length *)

Lemma broadcast_len_same (n : nat) : broadcast_len n n = Some n.
Proof. unfold broadcast_len. rewrite Nat.eqb_refl. reflexivity. Qed.

Lemma broadcast_to_same {A} (a : list A) : broadcast_to a (length a) = a.
Proof. unfold broadcast_to. rewrite Nat.eqb_refl. reflexivity. Qed.

Lemma broadcast_to_map {A B} (f : A -> B) (l : list A) :
  broadcast_to (map f l) (length l) = map f l.
Proof.
  unfold broadcast_to. rewrite length_map, Nat.eqb_refl. reflexivity.
Qed.

Lemma np_binop_same_length {A B C} (f : A -> B -> C) (a : list A)
  (b : list B) :
  length a = length b ->
  Np.binop f a b = ret (map (fun p => f (fst p) (snd p)) (combine a b)).
Proof.
  intros E. unfold Np.binop. rewrite <- E, broadcast_len_same.
  rewrite broadcast_to_same.
  replace (broadcast_to b (length a)) with b
    by (rewrite E; now rewrite broadcast_to_same).
  reflexivity.
Qed.

Lemma np_where_map {D A} (c : D -> bool) (a b : D -> A) (l : list D) :
  Np.where_ (map c l) (map a l) (map b l)
  = ret (map (fun d => if c d then a d else b d) l).
Proof.
  unfold Np.where_. rewrite !length_map, !broadcast_len_same.
  rewrite !broadcast_to_map. unfold ret. f_equal.
  induction l as [|d l IH]; simpl; [reflexivity | now rewrite IH].
Qed.

(** ** Validation of a categorical column *)

Lemma forallb_pointwise {A} (p q : A -> bool) (l : list A) :
  (forall x, p x = q x) -> forallb p l = forallb q l.
Proof.
  intros E. induction l as [|x l IH]; simpl; [reflexivity|].
  rewrite E, IH. reflexivity.
Qed.

Lemma forallb_of_map {A B} (f : A -> B) (p : B -> bool) (l : list A) :
  forallb p (map f l) = forallb (fun x => p (f x)) l.
Proof.
  induction l as [|x l IH]; simpl; [reflexivity | now rewrite IH].
Qed.


Lemma accepted_In (acceptable : list string) (x : string) :
  accepted acceptable x = true <-> In x acceptable.
Proof.
  unfold accepted. rewrite existsb_exists. split.
  - intros [y [Hy E]]. apply String.eqb_eq in E. subst y. exact Hy.
  - intros Hx. exists x. split; [exact Hx | apply String.eqb_refl].
Qed.

Lemma all_in1d_unique_from (acceptable seen l : list string) :
  all (in1d (unique_from String.eqb seen l) acceptable)
  = forallb (fun x => existsb (String.eqb x) seen || accepted acceptable x) l.
Proof.
  revert seen. induction l as [|x l IH]; intros seen; simpl; [reflexivity|].
  destruct (existsb (String.eqb x) seen) eqn:Hseen; simpl.
  - apply IH.
  - unfold all, in1d in *. simpl. rewrite IH.
    fold (accepted acceptable x).
    destruct (accepted acceptable x) eqn:Hx; simpl; [|reflexivity].
    apply forallb_pointwise. intros y.
    destruct (String.eqb_spec y x) as [->|_]; simpl; [|reflexivity].
    rewrite Hx. symmetry. apply orb_true_r.
Qed.

Lemma all_in1d_unique {L D} (acceptable : list string) (g : D -> string)
  (t : Series L D) :
  all (in1d (unique (map_values g t)) acceptable)
  = forallb (fun d => accepted acceptable (g d)) (values t).
Proof.
  unfold unique. rewrite all_in1d_unique_from, values_map_values.
  rewrite forallb_of_map. reflexivity.
Qed.

Lemma forallb_accepted_Forall {D} (acceptable : list string)
  (g : D -> string) (l : list D) :
  forallb (fun d => accepted acceptable (g d)) l = true
  <-> Forall (fun d => In (g d) acceptable) l.
Proof.
  rewrite forallb_forall, Forall_forall.
  split; intros Hl d Hd; apply accepted_In, Hl, Hd.
Qed.


Lemma openings_table (t : Stock.table) :
  Stock.calculate_infiltration_rate_due_to_openings t
  = if existsb volume_is_zero (values t)
    then raise (DivisionByZero Vent.zero_volume_message)
    else ret (map_values Dwelling.openings t).
Proof.
  unfold Stock.calculate_infiltration_rate_due_to_openings,
    Vent.calculate_infiltration_rate_due_to_openings,
    Vent.calculate_infiltration_rate_due_to_chimneys,
    Vent.calculate_infiltration_rate_due_to_open_flues,
    Vent.calculate_infiltration_rate_due_to_fans,
    Vent.calculate_infiltration_rate_due_to_room_heaters,
    Vent._calculate_infiltration_rate_due_to_opening,
    Vent.calculate_infiltration_rate_due_to_draught_lobby,
    to_float, map_dict_na, map_dict, Stock.col.
  rewrite !map_values_map_values, any_map_values.
  fold volume_is_zero.
  destruct (existsb volume_is_zero (values t)); [reflexivity|].
  rewrite !bind_ret, !binop_cols. reflexivity.
Qed.

Lemma structure_table (t : Stock.table) :
  Stock.calculate_infiltration_rate_due_to_structure t
  = if negb (forallb structure_type_ok (values t))
    then raise (ValueError Vent.structure_type_message)
    else if negb (forallb suspended_floor_ok (values t))
    then raise (ValueError Vent.suspended_floor_message)
    else ret (of_array (map Dwelling.structure (values t))).
Proof.
  unfold Stock.calculate_infiltration_rate_due_to_structure,
    Vent.calculate_infiltration_rate_due_to_structure,
    Vent.calculate_infiltration_rate_due_to_structure_type,
    Vent.calculate_infiltration_rate_due_to_suspended_floor,
    Vent.calculate_infiltration_rate_due_to_height,
    Vent.calculate_infiltration_rate_due_to_draught,
    to_float, map_dict, Stock.col.
  rewrite !all_in1d_unique.
  fold structure_type_ok suspended_floor_ok.
  destruct (forallb structure_type_ok (values t)); [|reflexivity].
  cbn [negb]. rewrite bind_ret.
  destruct (forallb suspended_floor_ok (values t)); [|reflexivity].
  cbn [negb]. rewrite bind_ret.
  rewrite !map_values_map_values, !binop_cols, !values_map_values.
  rewrite np_where_map, bind_ret. reflexivity.
Qed.

Lemma infiltration_table (t : Stock.table) :
  Stock.calculate_infiltration_rate t
  = if existsb volume_is_zero (values t)
    then raise (DivisionByZero Vent.zero_volume_message)
    else if negb (forallb structure_type_ok (values t))
    then raise (ValueError Vent.structure_type_message)
    else if negb (forallb suspended_floor_ok (values t))
    then raise (ValueError Vent.suspended_floor_message)
    else ret (binop mul
                (binop add (map_values Dwelling.openings t)
                   (of_array (map Dwelling.structure (values t))))
                (map_values Dwelling.shelter_factor t)).
Proof.
  pose proof (openings_table t) as Ho.
  pose proof (structure_table t) as Hs.
  unfold Stock.calculate_infiltration_rate_due_to_openings in Ho.
  unfold Stock.calculate_infiltration_rate_due_to_structure in Hs.
  unfold Stock.calculate_infiltration_rate, Vent.calculate_infiltration_rate.
  rewrite Ho.
  destruct (existsb volume_is_zero (values t)); [reflexivity|].
  rewrite bind_ret, Hs.
  destruct (forallb structure_type_ok (values t)); [|reflexivity].
  destruct (forallb suspended_floor_ok (values t)); [|reflexivity].
  cbn [negb]. rewrite bind_ret.
  unfold Vent.calculate_infiltration_rate_adjustment_factor, Stock.col.
  rewrite map_values_map_values. reflexivity.
Qed.

(** ** Stage 4 on a table *)

Lemma natural_map_values {D} (g : D -> float) (t : Series Z D) :
  Vent._calculate_natural_ventilation_air_rate_change (map_values g t)
  = map_values (fun d => Dwelling.natural (g d)) t.
Proof.
  unfold Vent._calculate_natural_ventilation_air_rate_change.
  rewrite !map_values_map_values.
  rewrite <- (map_values_map_values g (fun x => x)) at 1.
  rewrite <- (map_values_map_values g (fun x => gt x (Fin 1))).
  rewrite <- (map_values_map_values g
                (fun x => (Fin 0.5 + power x 2 * Fin 0.5)%float)).
  rewrite where_cols, map_values_map_values. reflexivity.
Qed.

Lemma outside_map_values {D} (g : D -> float) (t : Series Z D) :
  Vent._calculate_outside_ventilation_air_rate_change (map_values g t)
  = map_values (fun d => maximum (Fin 0.5) (g d + Fin 0.25)%float) t.
Proof.
  unfold Vent._calculate_outside_ventilation_air_rate_change.
  rewrite length_map_values, map_values_map_values.
  induction t as [|r t IH]; simpl; [reflexivity | now rewrite IH].
Qed.


Lemma effective_table (t : Stock.table) :
  Stock.calculate_effective_air_rate_change t
  = if negb (forallb ventilation_method_ok (values t))
    then raise (ValueError Vent.ventilation_method_message)
    else ret (sort_index (concat (effective_groups t))).
Proof.
  unfold Stock.calculate_effective_air_rate_change,
    Vent.calculate_effective_air_rate_change, Vent.method_is, Stock.col.
  rewrite all_in1d_unique. fold ventilation_method_ok.
  destruct (forallb ventilation_method_ok (values t)); [|reflexivity].
  cbn [negb]. rewrite !map_values_map_values.
  rewrite !getitem_bool_cols, !bind_ret.
  unfold Vent._calculate_loft_ventilation_air_rate_change,
    Vent._calculate_heat_recovery_ventilation_air_rate_change,
    Vent._calculate_mech_ventilation_air_rate_change.
  rewrite !natural_map_values, !outside_map_values,
    !map_values_map_values, !binop_cols.
  reflexivity.
Qed.

(** ** [sort_index] on integer labels *)


Lemma insert_row_perm {A} (r : Z * A) (s : Series Z A) :
  Permutation (insert_row r s) (r :: s).
Proof.
  induction s as [|r' s IH]; simpl; [reflexivity|].
  destruct (fst r <=? fst r')%Z; [reflexivity|].
  rewrite IH. apply perm_swap.
Qed.

Lemma sort_index_perm {A} (s : Series Z A) : Permutation (sort_index s) s.
Proof.
  induction s as [|r s IH]; simpl; [reflexivity|].
  rewrite insert_row_perm. constructor. exact IH.
Qed.

Lemma insert_row_sorted {A} (r : Z * A) (s : Series Z A) :
  StronglySorted label_le s -> StronglySorted label_le (insert_row r s).
Proof.
  induction 1 as [|r' s Hs IH Hr']; simpl.
  - repeat constructor.
  - destruct (Z.leb_spec (fst r) (fst r')) as [Hle|Hlt].
    + constructor; [constructor; assumption|].
      constructor; [exact Hle|].
      eapply Forall_impl; [|exact Hr'].
      intros x Hx. unfold label_le in *. lia.
    + constructor; [exact IH|].
      apply (Permutation_Forall (Permutation_sym (insert_row_perm r s))).
      constructor; [unfold label_le; lia | exact Hr'].
Qed.

Lemma sort_index_sorted {A} (s : Series Z A) :
  StronglySorted label_le (sort_index s).
Proof.
  induction s as [|r s IH]; simpl; [constructor|].
  apply insert_row_sorted, IH.
Qed.

Lemma sorted_index_of_rows {A} (s : Series Z A) :
  StronglySorted label_le s -> Sorted Z.le (index s).
Proof.
  intros Hs. apply StronglySorted_Sorted.
  induction Hs as [|r s Hs IH Hr]; simpl; constructor; [exact IH|].
  unfold index. rewrite Forall_map. exact Hr.
Qed.

Lemma strictly_sorted_rows_of_index {A} (s : Series Z A) :
  StronglySorted Z.lt (index s) -> StronglySorted label_lt s.
Proof.
  induction s as [|r s IH]; simpl; intros Hs; [constructor|].
  inversion Hs as [|x l Hl Hx]; subst. constructor; [apply IH, Hl|].
  unfold index in Hx. rewrite Forall_map in Hx. exact Hx.
Qed.

(** A list sorted by label and a rearrangement of it whose labels strictly
    increase are the same list. *)
Lemma sorted_perm_unique {A} (s1 s2 : Series Z A) :
  StronglySorted label_le s1 -> StronglySorted label_lt s2 ->
  Permutation s1 s2 -> s1 = s2.
Proof.
  intros H1. revert s2.
  induction H1 as [|a s1 Hs1 IH Ha]; intros s2 H2 Hp.
  - apply Permutation_nil in Hp. now subst.
  - destruct s2 as [|b s2].
    + apply Permutation_sym, Permutation_nil in Hp. discriminate.
    + inversion H2 as [|x l Hs2 Hb]; subst.
      assert (E : a = b).
      { assert (Hin_a : In a (b :: s2))
          by (eapply Permutation_in; [exact Hp | now left]).
        assert (Hin_b : In b (a :: s1))
          by (eapply Permutation_in;
              [apply Permutation_sym; exact Hp | now left]).
        destruct Hin_a as [E|Hin_a]; [now symmetry|].
        destruct Hin_b as [E|Hin_b]; [exact E|].
        rewrite Forall_forall in Ha, Hb.
        specialize (Ha b Hin_b). specialize (Hb a Hin_a).
        unfold label_le, label_lt in *. lia. }
      subst b. f_equal.
      apply IH; [exact Hs2|]. eapply Permutation_cons_inv; exact Hp.
Qed.

Lemma sort_index_of_perm {A} (s s' : Series Z A) :
  Permutation s s' -> StronglySorted label_lt s' -> sort_index s = s'.
Proof.
  intros Hp Hs'. apply sorted_perm_unique.
  - apply sort_index_sorted.
  - exact Hs'.
  - rewrite sort_index_perm. exact Hp.
Qed.

(** ** The five groups cover the table *)

Lemma effective_groups_perm (t : Stock.table) :
  Forall (fun d => In (Stock.ventilation_method d)
                     Vent.acceptable_ventilation_methods) (values t) ->
  Permutation (concat (effective_groups t)) (map_values Dwelling.effective t).
Proof.
  unfold concat, effective_groups, method_group. cbn [List.concat].
  rewrite app_nil_r.
  induction t as [|[l d] t IH]; intros Hok; [reflexivity|].
  inversion Hok as [|x xs Hd Ht]; subst. specialize (IH Ht).
  cbn [filter map_values map snd fst].
  unfold Dwelling.effective at 1.
  cbn [Vent.acceptable_ventilation_methods In] in Hd.
  destruct Hd as [E|[E|[E|[E|[E|[]]]]]]; rewrite <- E;
    cbn [String.eqb Ascii.eqb Bool.eqb map app].
  all: try (constructor; exact IH).
  all: rewrite !app_assoc; apply Permutation_sym, Permutation_cons_app;
    rewrite <- !app_assoc; apply Permutation_sym, IH.
Qed.


Lemma gt_zero_positive (x : float) : gt x (Fin 0) = true <-> Spec.positive x.
Proof.
  destruct x as [q|]; simpl; [|split; [discriminate | tauto]].
  rewrite negb_true_iff. split.
  - intros Hle. apply Qnot_le_lt. intros Hq.
    apply Qle_bool_iff in Hq. congruence.
  - intros Hlt. destruct (Qle_bool q 0) eqn:E; [|reflexivity].
    apply Qle_bool_iff in E. exfalso. eapply Qlt_not_le; eassumption.
Qed.

Lemma non_positive_gt_zero (x : float) :
  Spec.non_positive x -> gt x (Fin 0) = false.
Proof.
  destruct x as [q|]; simpl; [|tauto].
  intros Hq. apply Qle_bool_iff in Hq. rewrite Hq. reflexivity.
Qed.

Lemma eqb_zero_is_zero (x : float) :
  Np.eqb x (Fin 0) = true <-> Spec.is_zero x.
Proof.
  destruct x as [q|]; simpl; [apply Qeq_bool_iff|].
  split; [discriminate | tauto].
Qed.

Lemma structure_type_rate_spec (kind : string) :
  In kind Vent.acceptable_structure_types ->
  Dwelling.structure_type_rate Vent.default_unknown_structure_infiltration_rate
    kind
  = Spec.structure_type_rate kind.
Proof.
  cbn [Vent.acceptable_structure_types In].
  intros [E|[E|[E|[E|[]]]]]; subst kind; reflexivity.
Qed.

Lemma suspended_floor_rate_spec (kind : string) :
  In kind Vent.acceptable_suspended_floor_types ->
  Dwelling.suspended_floor_rate kind = Spec.suspended_floor_rate kind.
Proof.
  cbn [Vent.acceptable_suspended_floor_types In].
  intros [E|[E|[E|[]]]]; subst kind; reflexivity.
Qed.

Lemma draught_lobby_spec (flag : string) :
  Dwelling.draught_lobby flag = Spec.draught_lobby flag.
Proof.
  unfold Dwelling.draught_lobby, Spec.draught_lobby, Vent.yes_or_no_map.
  cbn [dict_get].
  destruct (String.eqb flag "YES"); [reflexivity|].
  destruct (String.eqb flag "NO"); reflexivity.
Qed.

(** Float arithmetic respects [feq]. *)
#[export] Instance add_Proper : Proper (feq ==> feq ==> feq) add.
Proof.
  intros [a|] [b|] E1 [c|] [d|] E2; simpl in *; try tauto.
  rewrite E1, E2. reflexivity.
Qed.

#[export] Instance sub_Proper : Proper (feq ==> feq ==> feq) sub.
Proof.
  intros [a|] [b|] E1 [c|] [d|] E2; simpl in *; try tauto.
  rewrite E1, E2. reflexivity.
Qed.

#[export] Instance mul_Proper : Proper (feq ==> feq ==> feq) mul.
Proof.
  intros [a|] [b|] E1 [c|] [d|] E2; simpl in *; try tauto.
  rewrite E1, E2. reflexivity.
Qed.

Lemma theoretical_spec (d : Stock.dwelling) :
  In (Stock.structure_type d) Vent.acceptable_structure_types ->
  In (Stock.is_floor_suspended d) Vent.acceptable_suspended_floor_types ->
  feq (Dwelling.theoretical d) (Spec.theoretical_structure d).
Proof.
  intros Hs Hf. unfold Dwelling.theoretical, Spec.theoretical_structure.
  rewrite (structure_type_rate_spec Hs), (suspended_floor_rate_spec Hf).
  apply add_Proper; [reflexivity|].
  destruct (Stock.percentage_draught_stripped d) as [p|]; simpl; [|exact I].
  field.
Qed.

(** ** Fresh indexes *)

Lemma length_range_index (n : nat) : length (range_index n) = n.
Proof. unfold range_index. rewrite length_map, length_seq. reflexivity. Qed.

Lemma map_snd_combine {A B} (l1 : list A) (l2 : list B) :
  length l1 = length l2 -> map snd (combine l1 l2) = l2.
Proof.
  revert l2. induction l1 as [|a l1 IH]; intros [|b l2] E; simpl in *;
    try discriminate; [reflexivity|].
  f_equal. apply IH. congruence.
Qed.

Lemma map_fst_combine {A B} (l1 : list A) (l2 : list B) :
  length l1 = length l2 -> map fst (combine l1 l2) = l1.
Proof.
  revert l2. induction l1 as [|a l1 IH]; intros [|b l2] E; simpl in *;
    try discriminate; [reflexivity|].
  f_equal. apply IH. congruence.
Qed.

Lemma values_of_array {A} (a : list A) : values (of_array a) = a.
Proof.
  unfold values, of_array. apply map_snd_combine, length_range_index.
Qed.

Lemma index_of_array {A} (a : list A) :
  index (of_array a) = range_index (length a).
Proof.
  unfold index, of_array. apply map_fst_combine, length_range_index.
Qed.

Lemma of_array_map {A B} (f : A -> B) (a : list A) :
  of_array (map f a) = map_values f (of_array a).
Proof.
  unfold of_array, map_values. rewrite length_map.
  generalize (range_index (length a)) as idx. 
  induction a as [|x a IH]; intros [|i idx]; simpl; try reflexivity.
  now rewrite IH.
Qed.

Lemma Forall2_map_r_in {A B} (P : A -> B -> Prop) (f : A -> B) (l : list A) :
  (forall x, In x l -> P x (f x)) -> Forall2 P l (map f l).
Proof.
  induction l as [|x l IH]; intros Hl; simpl; constructor.
  - apply Hl. now left.
  - apply IH. intros y Hy. apply Hl. now right.
Qed.


(* ------------------------------------------------------------------ *)
(** ** Claims on the ventilation component *)

(** C4.  With valid structure and floor categories, the structure stage
    returns one value per dwelling, in order: the measured permeability
    itself where it is positive, whatever the other inputs of that dwelling
    are, and the theoretical sum
    (storeys - 1) x 0.1 + structure rate + floor rate + (0.25 - 0.2 x pct/100)
    where it is zero or negative.  The choice is made row by row. *)
Theorem C4_permeability_override_per_dwelling (t : Stock.table) :
  Forall (fun d => In (Stock.structure_type d)
                     Vent.acceptable_structure_types) (values t) ->
  Forall (fun d => In (Stock.is_floor_suspended d)
                     Vent.acceptable_suspended_floor_types) (values t) ->
  exists out,
    Stock.calculate_infiltration_rate_due_to_structure t = inr out
    /\ Forall2
         (fun d v =>
            (Spec.positive (Stock.permeability_test_result d) ->
             v = Stock.permeability_test_result d)
            /\ (Spec.non_positive (Stock.permeability_test_result d) ->
                feq v (Spec.theoretical_structure d)))
         (values t) (values out).
Proof.
  intros Hs Hf. rewrite structure_table.
  pose proof (proj2 (forallb_accepted_Forall _ _ _) Hs) as Hsb.
  pose proof (proj2 (forallb_accepted_Forall _ _ _) Hf) as Hfb.
  unfold structure_type_ok, suspended_floor_ok. rewrite Hsb, Hfb.
  cbn [negb]. eexists. split; [reflexivity|].
  rewrite values_of_array. apply Forall2_map_r_in.
  intros d Hd. rewrite Forall_forall in Hs, Hf.
  unfold Dwelling.structure. split.
  - intros Hp. apply gt_zero_positive in Hp. rewrite Hp. reflexivity.
  - intros Hn. rewrite (non_positive_gt_zero _ Hn).
    apply theoretical_spec; [apply Hs | apply Hf]; exact Hd.
Qed.

Lemma C4_permeability_override_witness :
  exists out,
    Stock.calculate_infiltration_rate_due_to_structure Examples.relabelled
    = inr out
    /\ Forall2
         (fun d v =>
            (Spec.positive (Stock.permeability_test_result d) ->
             v = Stock.permeability_test_result d)
            /\ (Spec.non_positive (Stock.permeability_test_result d) ->
                feq v (Spec.theoretical_structure d)))
         (values Examples.relabelled) (values out).
Proof.
  apply (C4_permeability_override_per_dwelling Examples.relabelled).
  - repeat (constructor; [cbn; auto 10|]). constructor.
  - repeat (constructor; [cbn; auto 10|]). constructor.
Defined.

(** When the three checks of [calculate_infiltration_rate] fire. *)

Lemma existsb_volume_is_zero (l : list Stock.dwelling) :
  existsb volume_is_zero l = true
  <-> Exists (fun d => Spec.is_zero (Stock.building_volume d)) l.
Proof.
  rewrite existsb_exists, Exists_exists.
  split; intros [d [Hd Hz]]; exists d; (split; [exact Hd|]);
    apply eqb_zero_is_zero; exact Hz.
Qed.

Lemma forallb_accepted_false {D} (acceptable : list string)
  (g : D -> string) (l : list D) :
  forallb (fun d => accepted acceptable (g d)) l = false
  <-> Exists (fun d => ~ In (g d) acceptable) l.
Proof.
  induction l as [|d l IH]; simpl.
  - split; [discriminate | intros HE; inversion HE].
  - rewrite andb_false_iff, Exists_cons, IH.
    assert (Hd : accepted acceptable (g d) = false <-> ~ In (g d) acceptable).
    { rewrite <- accepted_In. destruct (accepted acceptable (g d)).
      - split; [discriminate | intros Hn; exfalso; apply Hn; reflexivity].
      - split; [intros _ Hn; discriminate Hn | reflexivity]. }
    rewrite Hd. reflexivity.
Qed.

(** C1 (as amended).  [calculate_infiltration_rate] raises exactly when
    some row has a building volume equal to zero, or a structure type or a
    suspended-floor type outside its accepted set; a negative volume is
    accepted.  The ventilation method is no input of this function: it is
    [calculate_effective_air_rate_change] that raises exactly when some row
    has a method outside the five.  A raised error is the whole result:
    there is no output beside it. *)
Theorem C1_raises_iff_zero_volume_or_unknown_category (t : Stock.table) :
  (raises (Stock.calculate_infiltration_rate t)
   <-> (Exists (fun d => Spec.is_zero (Stock.building_volume d)) (values t)
        \/ Exists (fun d => ~ In (Stock.structure_type d)
                              Vent.acceptable_structure_types) (values t)
        \/ Exists (fun d => ~ In (Stock.is_floor_suspended d)
                              Vent.acceptable_suspended_floor_types)
             (values t)))
  /\ (raises (Stock.calculate_effective_air_rate_change t)
      <-> Exists (fun d => ~ In (Stock.ventilation_method d)
                             Vent.acceptable_ventilation_methods) (values t)).
Proof.
  split.
  - rewrite infiltration_table, <- existsb_volume_is_zero.
    unfold structure_type_ok, suspended_floor_ok.
    rewrite <- !forallb_accepted_false.
    destruct (existsb volume_is_zero (values t)).
    { split; [intros _; left; reflexivity | intros _; apply raises_inl]. }
    destruct (forallb _ (values t)).
    2:{ split; [intros _; right; left; reflexivity
               | intros _; apply raises_inl]. }
    destruct (forallb _ (values t)).
    2:{ split; [intros _; right; right; reflexivity
               | intros _; apply raises_inl]. }
    cbn [negb]. split.
    + intros Hr. exfalso. exact (not_raises_inr Hr).
    + intros [Hx|[Hx|Hx]]; discriminate Hx.
  - rewrite effective_table. unfold ventilation_method_ok.
    rewrite <- forallb_accepted_false.
    destruct (forallb _ (values t)); cbn [negb].
    + split; [intros Hr; exfalso; exact (not_raises_inr Hr) | discriminate].
    + split; [reflexivity | intros _; apply raises_inl].
Qed.

(** C1 as stated fails.  A dwelling of volume -250 m3 is invalid for the
    specification, and so is one with an unknown ventilation method, yet
    [calculate_infiltration_rate] returns a value for each. *)
Lemma C1_counterexample_negative_volume_is_accepted :
  ~ (raises (Stock.calculate_infiltration_rate
               (Stock.of_rows
                  [Examples.with_volume (Fin (-250)) Examples.terrace]))
     <-> Spec.invalid_input
           (Stock.of_rows
              [Examples.with_volume (Fin (-250)) Examples.terrace]))
  /\ ~ (raises (Stock.calculate_infiltration_rate
                  (Stock.of_rows
                     [Examples.with_method "open_window" Examples.terrace]))
        <-> Spec.invalid_input
              (Stock.of_rows
                 [Examples.with_method "open_window" Examples.terrace])).
Proof.
  split; intros [_ Hraise].
  - assert (Hr : raises (Stock.calculate_infiltration_rate
               (Stock.of_rows
                  [Examples.with_volume (Fin (-250)) Examples.terrace]))).
    { apply Hraise. left. constructor. simpl. discriminate. }
    destruct Hr as [e He]. vm_compute in He. discriminate He.
  - assert (Hr : raises (Stock.calculate_infiltration_rate
                  (Stock.of_rows
                     [Examples.with_method "open_window" Examples.terrace]))).
    { apply Hraise. right. right. right. constructor. simpl.
      intros Hin. repeat (destruct Hin as [Hin|Hin]; [discriminate Hin|]).
      exact Hin. }
    destruct Hr as [e He]. vm_compute in He. discriminate He.
Qed.

Lemma openings_spec (d : Stock.dwelling) : Dwelling.openings d = Spec.openings d.
Proof.
  unfold Dwelling.openings, Spec.openings. rewrite draught_lobby_spec.
  reflexivity.
Qed.

Lemma structure_spec (d : Stock.dwelling) :
  In (Stock.structure_type d) Vent.acceptable_structure_types ->
  In (Stock.is_floor_suspended d) Vent.acceptable_suspended_floor_types ->
  feq (Dwelling.structure d) (Spec.structure d).
Proof.
  intros Hs Hf. unfold Dwelling.structure, Spec.structure.
  destruct (gt (Stock.permeability_test_result d) (Fin 0)).
  - reflexivity.
  - apply theoretical_spec; assumption.
Qed.

(** X3.  On a table under the default index, without a zero volume and
    with accepted categories, the three stages line up: every value is
    (openings + structure) x (1 - sheltered sides x 0.075) for the dwelling
    of that row, under its label. *)
Lemma infiltration_rate_default_index (ds : list Stock.dwelling) :
  Forall (fun d => ~ Spec.is_zero (Stock.building_volume d)) ds ->
  Forall (fun d => In (Stock.structure_type d)
                     Vent.acceptable_structure_types) ds ->
  Forall (fun d => In (Stock.is_floor_suspended d)
                     Vent.acceptable_suspended_floor_types) ds ->
  exists out,
    Stock.calculate_infiltration_rate (Stock.of_rows ds) = inr out
    /\ series_feq out (map_values Spec.infiltration_rate (Stock.of_rows ds)).
Proof.
  intros Hv Hs Hf. rewrite infiltration_table.
  unfold Stock.of_rows. rewrite values_of_array.
  destruct (existsb volume_is_zero ds) eqn:Ez.
  { exfalso. apply existsb_volume_is_zero in Ez.
    rewrite Exists_exists in Ez. destruct Ez as [d [Hd Hz]].
    rewrite Forall_forall in Hv. exact (Hv d Hd Hz). }
  pose proof (proj2 (forallb_accepted_Forall _ _ _) Hs) as Hsb.
  pose proof (proj2 (forallb_accepted_Forall _ _ _) Hf) as Hfb.
  unfold structure_type_ok, suspended_floor_ok. rewrite Hsb, Hfb.
  cbn [negb]. eexists. split; [reflexivity|].
  rewrite of_array_map, !binop_cols.
  apply series_feq_map_values. intros r Hr.
  assert (Hd : In (snd r) ds).
  { rewrite <- (values_of_array ds). unfold values. apply in_map, Hr. }
  rewrite Forall_forall in Hs, Hf.
  unfold Spec.infiltration_rate, Dwelling.shelter_factor.
  rewrite openings_spec.
  apply mul_Proper; [|reflexivity].
  apply add_Proper; [reflexivity|].
  apply structure_spec; [apply Hs | apply Hf]; exact Hd.
Qed.

(** X2.  Whatever the labels of the table, the structure stage answers
    under the labels 0..N-1. *)
Lemma structure_stage_index_is_fresh (t : Stock.table) (out : Series Z float) :
  Stock.calculate_infiltration_rate_due_to_structure t = inr out ->
  index out = range_index (length t).
Proof.
  rewrite structure_table.
  destruct (forallb structure_type_ok (values t)); [|discriminate].
  destruct (forallb suspended_floor_ok (values t)); [|discriminate].
  cbn [negb]. intros E. injection E as <-.
  rewrite index_of_array, length_map. unfold values.
  rewrite length_map. reflexivity.
Qed.

(** Under the default index the two dwellings of [street] get 0.7225 and
    0.5525 under their own labels. *)
Example infiltration_rate_street :
  exists out,
    Stock.calculate_infiltration_rate Examples.street = inr out
    /\ series_feq out [(0%Z, Fin 0.7225); (1%Z, Fin 0.5525)].
Proof.
  eexists. split; [vm_compute; reflexivity|].
  repeat (constructor; [split; [reflexivity | vm_compute; reflexivity]|]).
  constructor.
Qed.

(** C2.  The table [relabelled] carries the labels 10 and 11.  The
    structure stage answers under the labels 0 and 1, so the sum with the
    openings stage, which kept 10 and 11, finds no common label: the result
    has four rows, 0, 1, 10 and 11, none of them a number. *)
Theorem C2_index_is_lost_on_relabelled_table :
  index Examples.relabelled = [10; 11]%Z
  /\ (exists s,
        Stock.calculate_infiltration_rate_due_to_openings Examples.relabelled
        = inr s /\ index s = [10; 11]%Z)
  /\ (exists s,
        Stock.calculate_infiltration_rate_due_to_structure Examples.relabelled
        = inr s /\ index s = [0; 1]%Z)
  /\ Stock.calculate_infiltration_rate Examples.relabelled
     = inr [(0, NaN); (1, NaN); (10, NaN); (11, NaN)]%Z.
Proof.
  split; [reflexivity|].
  split; [eexists; split; [vm_compute; reflexivity | reflexivity]|].
  split; [eexists; split; [vm_compute; reflexivity | reflexivity]|].
  vm_compute. reflexivity.
Qed.

(** C7.  For the two dwellings of [relabelled] the formula
    (openings + structure) x (1 - sheltered sides x 0.075) gives 0.7225 and
    0.5525; [calculate_infiltration_rate] returns neither: every row of its
    result is [NaN]. *)
Theorem C7_formula_not_returned_on_relabelled_table :
  Forall2 (fun d q => feq (Spec.infiltration_rate d) (Fin q))
    (values Examples.relabelled) [0.7225; 0.5525]%Q
  /\ exists out,
       Stock.calculate_infiltration_rate Examples.relabelled = inr out
       /\ Forall (fun r => snd r = NaN) out.
Proof.
  split.
  - repeat (constructor; [vm_compute; reflexivity|]). constructor.
  - eexists. split; [vm_compute; reflexivity|]. repeat constructor.
Qed.

(** C8.  The draught-lobby lookup knows "YES" and "NO"; for any other flag
    it raises nothing and answers [NaN], which the sum of the openings
    stage and the final rate inherit.  The structure-type and
    suspended-floor lookups do raise on such a value. *)
Theorem C8_draught_lobby_flag_maps_to_nan :
  Vent.calculate_infiltration_rate_due_to_draught_lobby
    [(0%Z, "MAYBE"%string)] = [(0%Z, NaN)]
  /\ Vent.calculate_infiltration_rate_due_to_structure_type
       [(0%Z, "brick"%string)] Vent.default_unknown_structure_infiltration_rate
     = inl (ValueError Vent.structure_type_message)
  /\ Vent.calculate_infiltration_rate_due_to_suspended_floor
       [(0%Z, "MAYBE"%string)]
     = inl (ValueError Vent.suspended_floor_message).
Proof.
  repeat split; vm_compute; reflexivity.
Qed.

Lemma natural_spec (q : Q) : feq (Dwelling.natural (Fin q)) (Fin (Spec.natural q)).
Proof.
  unfold Dwelling.natural, Spec.natural. cbn [gt].
  destruct (Qlt_le_dec 1 q) as [Hlt|Hle].
  - destruct (Qle_bool q 1) eqn:E; cbn [negb].
    + apply Qle_bool_iff in E. exfalso. eapply Qlt_not_le; eassumption.
    + reflexivity.
  - apply Qle_bool_iff in Hle. rewrite Hle. cbn [negb].
    cbn [power add mul lift2 feq]. simpl Qpower. ring.
Qed.

(** C6.  On a Series of finite infiltration rates the natural-ventilation
    formula keeps the index and returns, row by row, the rate itself when it
    is strictly above 1 and 0.5 + 0.5 x rate^2 otherwise.  In particular
    0.8 gives 0.82, 1.5 gives 1.5, and 1.0 takes the squared branch and
    gives 1.0. *)
Theorem C6_natural_ventilation_formula :
  (forall s : Series Z Q,
      series_feq
        (Vent._calculate_natural_ventilation_air_rate_change
           (map_values Fin s))
        (map_values (fun x => Fin (Spec.natural x)) s))
  /\ series_feq
       (Vent._calculate_natural_ventilation_air_rate_change
          [(0%Z, Fin 0.8); (1%Z, Fin 1.5); (2%Z, Fin 1.0)])
       [(0%Z, Fin 0.82); (1%Z, Fin 1.5); (2%Z, Fin 1.0)]
  /\ Spec.natural 1.0 = (0.5 + 0.5 * (1.0 * 1.0))%Q.
Proof.
  split; [|split].
  - intros s. rewrite natural_map_values.
    apply series_feq_map_values. intros r _. apply natural_spec.
  - repeat (constructor; [split; [reflexivity | vm_compute; reflexivity]|]).
    constructor.
  - reflexivity.
Qed.

(** C3.  For a table whose ventilation methods are all among the five,
    [calculate_effective_air_rate_change] returns a Series of the length of
    the table whose labels are those of the table, each as often, in
    increasing order; its rows are the per-method rates of the dwellings.
    When the labels of the table already increase, the result is, row for
    row, the rate of the dwelling of that row under its label. *)
Theorem C3_effective_air_rate_change_recombines (t : Stock.table) :
  Forall (fun d => In (Stock.ventilation_method d)
                     Vent.acceptable_ventilation_methods) (values t) ->
  exists out,
    Stock.calculate_effective_air_rate_change t = inr out
    /\ length out = length t
    /\ Permutation (index out) (index t)
    /\ Sorted Z.le (index out)
    /\ Permutation out (map_values Dwelling.effective t)
    /\ (StronglySorted Z.lt (index t) ->
        index out = index t /\ out = map_values Dwelling.effective t).
Proof.
  intros Hok. rewrite effective_table.
  pose proof (proj2 (forallb_accepted_Forall _ _ _) Hok) as Hb.
  unfold ventilation_method_ok. rewrite Hb. cbn [negb].
  eexists. split; [reflexivity|].
  assert (Hp : Permutation (sort_index (concat (effective_groups t)))
                 (map_values Dwelling.effective t)).
  { rewrite sort_index_perm. apply effective_groups_perm, Hok. }
  split; [|split; [|split; [|split; [exact Hp|]]]].
  - rewrite (Permutation_length Hp). apply length_map_values.
  - rewrite <- (index_map_values Dwelling.effective t).
    unfold index. apply Permutation_map, Hp.
  - apply sorted_index_of_rows, sort_index_sorted.
  - intros Hinc.
    rewrite <- (index_map_values Dwelling.effective t) in Hinc.
    assert (E : sort_index (concat (effective_groups t))
                = map_values Dwelling.effective t).
    { apply sort_index_of_perm.
      - apply effective_groups_perm, Hok.
      - apply strictly_sorted_rows_of_index, Hinc. }
    rewrite E. split; [apply index_map_values | reflexivity].
Qed.

Lemma C3_effective_air_rate_change_witness :
  exists out,
    Stock.calculate_effective_air_rate_change Examples.five_methods = inr out
    /\ length out = length Examples.five_methods
    /\ Permutation (index out) (index Examples.five_methods)
    /\ Sorted Z.le (index out)
    /\ Permutation out (map_values Dwelling.effective Examples.five_methods)
    /\ (StronglySorted Z.lt (index Examples.five_methods) ->
        index out = index Examples.five_methods
        /\ out = map_values Dwelling.effective Examples.five_methods).
Proof.
  apply (C3_effective_air_rate_change_recombines Examples.five_methods).
  repeat (constructor; [cbn; auto 10|]). constructor.
Defined.

(* ------------------------------------------------------------------ *)
(** ** Tiling, repeating and regrouping *)

Lemma combine_app_same_length {A B} (a a' : list A) (b b' : list B) :
  length a = length b ->
  combine (a ++ a') (b ++ b') = combine a b ++ combine a' b'.
Proof.
  revert b. induction a as [|x a IH]; intros [|y b] E; simpl in *;
    try discriminate; [reflexivity|].
  f_equal. apply IH. congruence.
Qed.

Lemma length_tile {A} (a : list A) (n : nat) :
  length (tile a n) = (n * length a)%nat.
Proof.
  induction n as [|n IH]; simpl; [reflexivity|].
  rewrite length_app, IH. reflexivity.
Qed.

Lemma length_flat_map_const {A B} (F : A -> list B) (k : nat) (l : list A) :
  (forall x, length (F x) = k) -> length (flat_map F l) = (length l * k)%nat.
Proof.
  intros HF. induction l as [|x l IH]; simpl; [reflexivity|].
  rewrite length_app, HF, IH. reflexivity.
Qed.

Lemma combine_tile_flat_map {A B C} (a : list A) (F : C -> list B)
  (cs : list C) :
  (forall c, length (F c) = length a) ->
  combine (tile a (length cs)) (flat_map F cs)
  = flat_map (fun c => combine a (F c)) cs.
Proof.
  intros HF. induction cs as [|c cs IH]; simpl; [reflexivity|].
  rewrite combine_app_same_length by (symmetry; apply HF).
  now rewrite IH.
Qed.

Lemma combine_flat_map_tile {A B C} (a : list A) (F : C -> list B)
  (cs : list C) :
  (forall c, length (F c) = length a) ->
  combine (flat_map F cs) (tile a (length cs))
  = flat_map (fun c => combine (F c) a) cs.
Proof.
  intros HF. induction cs as [|c cs IH]; simpl; [reflexivity|].
  rewrite combine_app_same_length by apply HF.
  now rewrite IH.
Qed.

Lemma map_flat_map {A B C} (f : B -> C) (F : A -> list B) (l : list A) :
  map f (flat_map F l) = flat_map (fun x => map f (F x)) l.
Proof.
  induction l as [|x l IH]; simpl; [reflexivity|].
  now rewrite map_app, IH.
Qed.

Lemma filter_flat_map {A B} (p : B -> bool) (F : A -> list B) (l : list A) :
  filter p (flat_map F l) = flat_map (fun x => filter p (F x)) l.
Proof.
  induction l as [|x l IH]; simpl; [reflexivity|].
  now rewrite filter_app, IH.
Qed.

Lemma flat_map_singleton {A B} (f : A -> B) (l : list A) :
  flat_map (fun x => [f x]) l = map f l.
Proof.
  induction l as [|x l IH]; simpl; [reflexivity | now rewrite IH].
Qed.

Lemma flat_map_ext_in {A B} (F G : A -> list B) (l : list A) :
  (forall x, In x l -> F x = G x) -> flat_map F l = flat_map G l.
Proof.
  induction l as [|x l IH]; intros E; simpl; [reflexivity|].
  rewrite (E x) by now left. rewrite IH; [reflexivity|].
  intros y Hy. apply E. now right.
Qed.

(** ** First appearances *)

Lemma unique_from_all_seen {A} (eqb : A -> A -> bool) (seen l : list A) :
  (forall x, In x l -> existsb (eqb x) seen = true) ->
  unique_from eqb seen l = [].
Proof.
  induction l as [|x l IH]; intros Hl; simpl; [reflexivity|].
  rewrite Hl by now left. apply IH. intros y Hy. apply Hl. now right.
Qed.

Lemma existsb_Zeqb (x : Z) (l : list Z) :
  existsb (Z.eqb x) l = true <-> In x l.
Proof.
  rewrite existsb_exists. split.
  - intros [y [Hy E]]. apply Z.eqb_eq in E. now subst.
  - intros Hx. exists x. split; [exact Hx | apply Z.eqb_refl].
Qed.

Lemma unique_from_NoDup (seen l rest : list Z) :
  NoDup l -> (forall x, In x l -> ~ In x seen) ->
  unique_from Z.eqb seen (l ++ rest)
  = l ++ unique_from Z.eqb (rev l ++ seen) rest.
Proof.
  revert seen. induction l as [|x l IH]; intros seen Hnd Hseen; simpl;
    [reflexivity|].
  inversion Hnd as [|y l' Hx Hl]; subst.
  destruct (existsb (Z.eqb x) seen) eqn:E.
  { apply existsb_Zeqb in E. exfalso. apply (Hseen x); [now left | exact E]. }
  f_equal. rewrite IH.
  - rewrite <- app_assoc. reflexivity.
  - exact Hl.
  - intros y Hy [Hin|Hin].
    + subst y. exact (Hx Hy).
    + apply (Hseen y); [now right | exact Hin].
Qed.

Lemma NoDup_range_index (n : nat) : NoDup (range_index n).
Proof.
  unfold range_index. apply Injective_map_NoDup.
  - intros a b. apply Nat2Z.inj.
  - apply seq_NoDup.
Qed.

(** The labels of [k] copies of one duplicate-free index appear first in
    the order of that index. *)
Lemma unique_from_tile (idx : list Z) (k : nat) :
  NoDup idx -> unique_from Z.eqb [] (tile idx (S k)) = idx.
Proof.
  intros Hnd. simpl. rewrite unique_from_NoDup; [|exact Hnd|intros x _ []].
  rewrite unique_from_all_seen; [apply app_nil_r|].
  intros x Hx. apply existsb_Zeqb. rewrite app_nil_r, <- in_rev.
  induction k as [|k IH]; simpl in Hx; [contradiction|].
  apply in_app_or in Hx. destruct Hx as [Hx|Hx]; [exact Hx | apply IH, Hx].
Qed.

(** ** Counting within groups *)

Lemma filter_repeat_other (k m : string) (n : nat) :
  String.eqb k m = false -> filter (String.eqb k) (List.repeat m n) = [].
Proof.
  intros E. induction n as [|n IH]; simpl; [reflexivity|].
  rewrite E. exact IH.
Qed.

Lemma cumcount_from_block (seen : list string) (k : string) (n : nat)
  (rest : list string) :
  cumcount_from seen (List.repeat k n ++ rest)
  = map (fun i => Z.of_nat (length (filter (String.eqb k) seen) + i))
        (seq 0 n)
    ++ cumcount_from (List.repeat k n ++ seen) rest.
Proof.
  revert seen. induction n as [|n IH]; intros seen; [reflexivity|].
  cbn [List.repeat app cumcount_from seq map].
  change (@label_eqb string string_Label) with String.eqb.
  rewrite Nat.add_0_r. f_equal.
  rewrite IH. cbn [filter]. rewrite String.eqb_refl. cbn [length].
  rewrite <- seq_shift, map_map. f_equal.
  - apply map_ext. intros i. f_equal. lia.
  - change (k :: List.repeat k n ++ seen)
      with ((k :: List.repeat k n) ++ seen).
    rewrite repeat_cons, <- app_assoc. reflexivity.
Qed.

Lemma cumcount_from_blocks (ms seen : list string) (n : nat) :
  NoDup ms ->
  (forall m, In m ms -> filter (String.eqb m) seen = []) ->
  cumcount_from seen (flat_map (fun m => List.repeat m n) ms)
  = tile (range_index n) (length ms).
Proof.
  revert seen. induction ms as [|m ms IH]; intros seen Hnd Hseen;
    [reflexivity|].
  inversion Hnd as [|x l Hm Hms]; subst.
  cbn [flat_map tile length]. rewrite cumcount_from_block.
  rewrite (Hseen m) by now left. f_equal.
  apply IH; [exact Hms|].
  intros m' Hm'. rewrite filter_app, (Hseen m') by now right.
  rewrite app_nil_r. apply filter_repeat_other.
  destruct (String.eqb_spec m' m) as [->|]; [contradiction | reflexivity].
Qed.

(** ** One row per label *)

Lemma filter_label_absent {A} (k : Z) (s : Series Z A) :
  ~ In k (index s) -> filter (fun r => Z.eqb (fst r) k) s = [].
Proof.
  induction s as [|r s IH]; intros Hk; simpl; [reflexivity|].
  destruct (Z.eqb_spec (fst r) k) as [E|_].
  - exfalso. apply Hk. left. exact E.
  - apply IH. intros Hin. apply Hk. right. exact Hin.
Qed.

Lemma filter_label_combine {A B} (idx : list Z) (cs : list A) (v : A -> B)
  (k : Z) (c : A) :
  NoDup idx -> In (k, c) (combine idx cs) ->
  filter (fun r => Z.eqb (fst r) k) (combine idx (map v cs)) = [(k, v c)].
Proof.
  revert cs. induction idx as [|i idx IH]; intros [|c0 cs] Hnd Hin;
    simpl in *; try contradiction.
  inversion Hnd as [|x l Hi Hidx]; subst.
  destruct Hin as [E|Hin].
  - inversion E; subst. rewrite Z.eqb_refl. f_equal.
    apply filter_label_absent. intros Hk. apply Hi.
    unfold index in Hk. apply in_map_iff in Hk.
    destruct Hk as [[k' b] [E' Hk]]. simpl in E'. subst k'.
    eapply in_combine_l. exact Hk.
  - destruct (Z.eqb_spec i k) as [->|_].
    + exfalso. apply Hi. eapply in_combine_l. exact Hin.
    + apply IH; assumption.
Qed.

(** ** The heat-loss array *)


Lemma length_values {L A} (s : Series L A) : length (values s) = length s.
Proof. apply length_map. Qed.

Lemma length_kwh_row (dtv hsv : list float) (c : float) :
  length dtv = length hsv -> length (kwh_row dtv hsv c) = length hsv.
Proof.
  intros E. unfold kwh_row.
  rewrite length_map, length_combine, !length_map, length_combine,
    repeat_length.
  lia.
Qed.

Lemma heat_loss_kwh_rows (coeff : Series Z float)
  (delta_t hours : Series string float) :
  length delta_t = length hours ->
  Htuse._calculate_heat_loss_kwh coeff delta_t hours
  = ret (flat_map (kwh_row (values delta_t) (values hours)) (values coeff)).
Proof.
  intros E. unfold Htuse._calculate_heat_loss_kwh, repeat_each.
  rewrite <- !(length_values coeff), <- (length_values hours).
  assert (Ev : length (values delta_t) = length (values hours))
    by (rewrite !length_values; exact E).
  rewrite np_binop_same_length.
  2:{ rewrite length_tile, (@length_flat_map_const _ _ _ (length (values hours))).
      - rewrite Ev. reflexivity.
      - intros c. apply repeat_length. }
  rewrite bind_ret, combine_flat_map_tile.
  2:{ intros c. rewrite repeat_length. symmetry. exact Ev. }
  rewrite !map_flat_map.
  rewrite np_binop_same_length.
  2:{ rewrite length_tile, (@length_flat_map_const _ _ _ (length (values hours))).
      - reflexivity.
      - intros c. rewrite !length_map, length_combine, repeat_length. lia. }
  rewrite combine_flat_map_tile.
  2:{ intros c. rewrite !length_map, length_combine, repeat_length. lia. }
  rewrite map_flat_map. reflexivity.
Qed.


Lemma filter_month_block (dq hq : list Q) (c : Q) (m : string) :
  length dq = 12%nat -> length hq = 12%nat -> In m Htuse.heating_months ->
  filter (fun r => String.eqb (fst r) m) (month_block dq hq c)
  = [(m, month_kwh dq hq c m)].
Proof.
  intros Hd Hh Hm.
  do 12 (destruct dq as [|? dq]; [discriminate Hd|]).
  destruct dq; [|discriminate Hd].
  do 12 (destruct hq as [|? hq]; [discriminate Hh|]).
  destruct hq; [|discriminate Hh].
  cbn [Htuse.heating_months In] in Hm.
  destruct Hm as [E|[E|[E|[E|[E|[E|[E|[E|[]]]]]]]]]; subst m; reflexivity.
Qed.

Lemma length_month_block (dq hq : list Q) (c : Q) :
  length dq = 12%nat -> length hq = 12%nat ->
  length (month_block dq hq c) = 12%nat.
Proof.
  intros Hd Hh.
  do 12 (destruct dq as [|? dq]; [discriminate Hd|]).
  destruct dq; [|discriminate Hd].
  do 12 (destruct hq as [|? hq]; [discriminate Hh|]).
  destruct hq; [|discriminate Hh].
  reflexivity.
Qed.

Lemma index_month_block (dq hq : list Q) (c : Q) :
  length dq = 12%nat -> length hq = 12%nat ->
  index (month_block dq hq c) = Htuse.months.
Proof.
  intros Hd Hh.
  do 12 (destruct dq as [|? dq]; [discriminate Hd|]).
  destruct dq; [|discriminate Hd].
  do 12 (destruct hq as [|? hq]; [discriminate Hh|]).
  destruct hq; [|discriminate Hh].
  reflexivity.
Qed.

Lemma flat_map_of_map {A B C} (g : A -> B) (F : B -> list C) (l : list A) :
  flat_map F (map g l) = flat_map (fun x => F (g x)) l.
Proof.
  induction l as [|x l IH]; simpl; [reflexivity | now rewrite IH].
Qed.

Lemma index_flat_map_const {A B} (V : A -> string -> B) (l : list A)
  (ms : list string) :
  index (flat_map (fun m => map (fun c => (m, V c m)) l) ms)
  = flat_map (fun m => List.repeat m (length l)) ms.
Proof.
  unfold index. rewrite map_flat_map. apply flat_map_ext_in. intros m _.
  rewrite map_map. cbn [fst].
  induction l as [|c l IH]; simpl; [reflexivity | now rewrite IH].
Qed.

Lemma values_flat_map_const {A B} (V : A -> string -> B) (l : list A)
  (ms : list string) :
  values (flat_map (fun m => map (fun c => (m, V c m)) l) ms)
  = flat_map (fun m => map (fun c => V c m) l) ms.
Proof.
  unfold values. rewrite map_flat_map. apply flat_map_ext_in. intros m _.
  rewrite map_map. reflexivity.
Qed.

Lemma map_fst_of_combine {A B C} (f : A -> C) (a : list A) (b : list B) :
  length a = length b ->
  map f a = map (fun p => f (fst p)) (combine a b).
Proof.
  intros E. rewrite <- (map_map fst f), map_fst_combine by exact E.
  reflexivity.
Qed.

Lemma NoDup_heating_months : NoDup Htuse.heating_months.
Proof.
  unfold Htuse.heating_months.
  repeat (constructor;
          [cbn [In]; intros Hin;
           repeat (destruct Hin as [Hin|Hin]; [discriminate Hin|]);
           exact Hin|]).
  constructor.
Qed.

Lemma combine_map_r {A B C} (g : B -> C) (a : list A) (b : list B) :
  combine a (map g b) = map (fun p => (fst p, g (snd p))) (combine a b).
Proof.
  revert b. induction a as [|x a IH]; intros [|y b]; simpl;
    try reflexivity.
  now rewrite IH.
Qed.

Lemma index_tile_blocks {A B} (idx : list Z) (F : A -> list B)
  (ms : list A) :
  (forall m, length (F m) = length idx) ->
  index (flat_map (fun m => combine idx (F m)) ms) = tile idx (length ms).
Proof.
  intros HF. unfold index. rewrite map_flat_map.
  induction ms as [|m ms IH]; simpl; [reflexivity|].
  rewrite IH, map_fst_combine by (symmetry; apply HF). reflexivity.
Qed.

(** Summing by label a Series made of one block per month, each block
    under the same duplicate-free index: one row per label, holding the sum
    over the months of the values of that label. *)
Lemma sum_level0_blocks {A} (idx : list Z) (l : list A)
  (V : A -> string -> float) (ms : list string) :
  NoDup idx -> length idx = length l -> ms <> [] ->
  sum_level0 (flat_map (fun m => combine idx (map (fun c => V c m) l)) ms)
  = combine idx (map (fun c => nansum (map (V c) ms)) l).
Proof.
  intros Hnd Hlen Hms. unfold sum_level0.
  rewrite index_tile_blocks by (intros m; rewrite length_map; now symmetry).
  destruct ms as [|m0 ms']; [contradiction|].
  cbn [length]. rewrite unique_from_tile by exact Hnd.
  rewrite (map_fst_of_combine _ idx l Hlen), combine_map_r.
  apply map_ext_in. intros [k c] Hin. cbn [fst snd]. f_equal. f_equal.
  rewrite filter_flat_map.
  rewrite (flat_map_ext_in _ (fun m => [(k, V c m)])).
  - rewrite flat_map_singleton. unfold values. rewrite map_map.
    reflexivity.
  - intros m _. apply (@filter_label_combine _ _ idx l (fun c => V c m) k c Hnd Hin).
Qed.

Lemma heat_loss_per_year_rows (cs : Series Z Q) (dq hq : list Q) :
  cs <> [] -> length dq = 12%nat -> length hq = 12%nat ->
  Htuse.calculate_heat_loss_per_year
    (map_values Fin cs) (Htuse.monthly dq) (Htuse.monthly hq)
  = ret (of_array
           (map (fun c => round (nansum (map (month_kwh dq hq c)
                                            Htuse.heating_months)))
              (values cs))).
Proof.
  intros Hne Hd Hh. unfold Htuse.calculate_heat_loss_per_year.
  assert (Hlen : length (Htuse.monthly dq) = length (Htuse.monthly hq)).
  { unfold Htuse.monthly. rewrite !length_combine, !length_map, Hd, Hh.
    reflexivity. }
  rewrite heat_loss_kwh_rows by exact Hlen. rewrite bind_ret.
  rewrite values_map_values, flat_map_of_map.
  rewrite length_map_values, <- (length_values cs).
  set (l := values cs).
  assert (Hl : l <> []).
  { subst l. destruct cs; [contradiction | discriminate]. }
  (* the array under the month labels *)
  unfold of_array_index at 1.
  rewrite length_tile.
  rewrite (@length_flat_map_const _ _ _ 12%nat).
  2:{ intros c. rewrite length_kwh_row.
      - unfold Htuse.monthly. now rewrite length_values, length_combine,
          length_map, Hh.
      - now rewrite !length_values. }
  cbn [Htuse.months length]. rewrite Nat.eqb_refl, bind_ret.
  change ["jan"; "feb"; "mar"; "apr"; "may"; "jun";
          "jul"; "aug"; "sep"; "oct"; "nov"; "dec"]%string
    with Htuse.months.
  rewrite combine_tile_flat_map.
  2:{ intros c. rewrite length_kwh_row.
      - unfold Htuse.monthly. now rewrite length_values, length_combine,
          length_map, Hh.
      - now rewrite !length_values. }
  fold (month_block dq hq).
  (* the eight heating months, month by month *)
  unfold loc_list.
  assert (Hcheck :
    forallb (fun m => existsb (label_eqb m)
                        (index (flat_map (month_block dq hq) l)))
      Htuse.heating_months = true).
  { destruct l as [|c0 l']; [contradiction|].
    cbn [flat_map]. unfold index. rewrite map_app. fold (index (month_block dq hq c0)).
    rewrite index_month_block by assumption.
    apply forallb_forall. intros m Hm. rewrite existsb_app.
    apply orb_true_iff. left.
    cbn [Htuse.heating_months In] in Hm.
    destruct Hm as [E|[E|[E|[E|[E|[E|[E|[E|[]]]]]]]]]; subst m; reflexivity. }
  rewrite Hcheck, bind_ret.
  assert (Hloc :
    flat_map (fun m => filter (fun r : string * float => label_eqb (fst r) m)
                         (flat_map (month_block dq hq) l))
      Htuse.heating_months
    = flat_map (fun m => map (fun c => (m, month_kwh dq hq c m)) l)
        Htuse.heating_months).
  { apply flat_map_ext_in. intros m Hm. rewrite filter_flat_map.
    rewrite <- flat_map_singleton. apply flat_map_ext_in. intros c _.
    apply filter_month_block; assumption. }
  rewrite Hloc. clear Hloc Hcheck.
  (* the position of each value within its month *)
  unfold cumcount. rewrite index_flat_map_const, values_flat_map_const.
  rewrite cumcount_from_blocks;
    [|exact NoDup_heating_months | intros m _; reflexivity].
  unfold of_array_index.
  rewrite length_tile, length_range_index.
  rewrite (@length_flat_map_const _ _ _ (length l))
    by (intros m; apply length_map).
  rewrite Nat.eqb_refl, bind_ret.
  rewrite combine_tile_flat_map
    by (intros m; rewrite length_map, length_range_index; reflexivity).
  rewrite sum_level0_blocks.
  - unfold of_array. rewrite length_map, combine_map_r.
    unfold map_values. rewrite map_map, combine_map_r. reflexivity.
  - apply NoDup_range_index.
  - apply length_range_index.
  - discriminate.
Qed.


Lemma round_half_even_comp (x y : Q) :
  x == y -> round_half_even x = round_half_even y.
Proof.
  intros E. unfold round_half_even.
  rewrite (Qfloor_comp x y E).
  assert (Ed : x - inject_Z (Qfloor y) == y - inject_Z (Qfloor y))
    by (apply Qplus_comp; [exact E | reflexivity]).
  rewrite (Qleb_comp _ _ Ed _ _ (Qeq_refl (1 # 2))).
  rewrite (Qeqb_comp _ _ Ed _ _ (Qeq_refl (1 # 2))).
  reflexivity.
Qed.

Lemma nansum_heating_months (dq hq : list Q) (c : Q) :
  feq (nansum (map (month_kwh dq hq c) Htuse.heating_months))
    (Fin (HtSpec.heat_loss_kwh c (Htuse.monthly dq) (Htuse.monthly hq))).
Proof.
  unfold HtSpec.heat_loss_kwh, HtSpec.sum_over, month_kwh, nansum.
  cbn [Htuse.heating_months map fold_left fold_right add lift2 feq].
  field.
Qed.

(* ------------------------------------------------------------------ *)
(** ** Claims on the heat-transfer component *)

(** What the code does for one dwelling or more.  For a non-empty Series
    of finite heat-loss coefficients and twelve monthly values of delta-T
    and of hours, [calculate_heat_loss_per_year] returns one value per
    dwelling, the value of the i-th dwelling in the i-th row: the sum over
    the eight heating-season months jan, feb, mar, apr, may, oct, nov, dec
    of coefficient x delta_T x hours / 1000, rounded to the nearest
    integer; a coefficient of 0 gives 0.  The rows come back under the
    labels 0..N-1, not under the labels of the input. *)
Lemma heat_loss_per_year_sums_heating_months
  (cs : Series Z Q) (dq hq : list Q) :
  cs <> [] -> length dq = 12%nat -> length hq = 12%nat ->
  (exists out,
      Htuse.calculate_heat_loss_per_year
        (map_values Fin cs) (Htuse.monthly dq) (Htuse.monthly hq)
      = inr out
      /\ length out = length cs
      /\ index out = range_index (length cs)
      /\ Forall2
           (fun c v =>
              feq v (Fin (inject_Z
                            (round_half_even
                               (HtSpec.heat_loss_kwh c (Htuse.monthly dq)
                                  (Htuse.monthly hq))))))
           (values cs) (values out))
  /\ round_half_even
       (HtSpec.heat_loss_kwh 0 (Htuse.monthly dq) (Htuse.monthly hq))
     = 0%Z.
Proof.
  intros Hne Hd Hh. split.
  - rewrite heat_loss_per_year_rows by assumption.
    eexists. split; [reflexivity|].
    rewrite index_of_array, values_of_array, length_map, length_values.
    split; [|split; [reflexivity|]].
    + unfold of_array. rewrite length_combine, length_range_index,
        length_map, length_values. apply Nat.min_id.
    + apply Forall2_map_r_in. intros c _.
      pose proof (nansum_heating_months dq hq c) as Hs.
      destruct (nansum (map (month_kwh dq hq c) Htuse.heating_months))
        as [q|]; [|contradiction].
      cbn [round feq] in *. rewrite (round_half_even_comp Hs). reflexivity.
  - rewrite (@round_half_even_comp _ 0); [reflexivity|].
    unfold HtSpec.heat_loss_kwh, HtSpec.sum_over.
    cbn [Htuse.heating_months fold_right]. field.
Qed.

Lemma heat_loss_per_year_sums_heating_months_witness :
  (exists out,
      Htuse.calculate_heat_loss_per_year
        (map_values Fin [(0%Z, 100); (1%Z, 0)])
        (Htuse.monthly [12.42; 12.23; 10.85; 9.65; 7.15; 4.85;
                        3.0; 3.28; 5.03; 7.71; 10.38; 11.77])
        (Htuse.monthly [744; 672; 744; 720; 744; 720;
                        744; 744; 720; 744; 720; 744])
      = inr out
      /\ length out = 2%nat
      /\ index out = [0; 1]%Z
      /\ Forall2
           (fun c v =>
              feq v (Fin (inject_Z
                            (round_half_even
                               (HtSpec.heat_loss_kwh c
                                  (Htuse.monthly
                                     [12.42; 12.23; 10.85; 9.65; 7.15; 4.85;
                                      3.0; 3.28; 5.03; 7.71; 10.38; 11.77])
                                  (Htuse.monthly
                                     [744; 672; 744; 720; 744; 720;
                                      744; 744; 720; 744; 720; 744]))))))
           [100; 0] (values out))
  /\ round_half_even
       (HtSpec.heat_loss_kwh 0
          (Htuse.monthly [12.42; 12.23; 10.85; 9.65; 7.15; 4.85;
                          3.0; 3.28; 5.03; 7.71; 10.38; 11.77])
          (Htuse.monthly [744; 672; 744; 720; 744; 720;
                          744; 744; 720; 744; 720; 744]))
     = 0%Z.
Proof.
  apply (@heat_loss_per_year_sums_heating_months
           [(0%Z, 100); (1%Z, 0)]
           [12.42; 12.23; 10.85; 9.65; 7.15; 4.85;
            3.0; 3.28; 5.03; 7.71; 10.38; 11.77]
           [744; 672; 744; 720; 744; 720; 744; 744; 720; 744; 720; 744]).
  - discriminate.
  - reflexivity.
  - reflexivity.
Defined.

(** With the default monthly constants a coefficient of 100 W/K gives
    5977 kWh, and a coefficient of 0 gives 0. *)
Example heat_loss_per_year_default_constants :
  exists out,
    Htuse.calculate_heat_loss_per_year [(0%Z, Fin 100); (1%Z, Fin 0)]
      Htuse.DELTA_T_BY_MONTH Htuse.HOURS_PER_MONTH = inr out
    /\ series_feq out [(0%Z, Fin 5977); (1%Z, Fin 0)].
Proof.
  eexists. split; [vm_compute; reflexivity|].
  repeat (constructor; [split; [reflexivity | vm_compute; reflexivity]|]).
  constructor.
Qed.

(** C5.  [calculate_heat_loss_per_year] does not return one index-aligned
    value per dwelling on every Series.  On the empty population no row
    carries a heating-month label, the selection of the heating months
    raises [KeyError] and no Series is returned.  On three dwellings
    labelled 10, 11, 12 the three values come back under the labels 0, 1, 2:
    the index of the input is lost. *)
Theorem C5_heat_loss_per_year_loses_empty_population_and_index :
  (exists msg,
      Htuse.calculate_heat_loss_per_year []
        Htuse.DELTA_T_BY_MONTH Htuse.HOURS_PER_MONTH = inl (KeyError msg))
  /\ index [(10%Z, Fin 100); (11%Z, Fin 0); (12%Z, Fin 50)]
     = [10; 11; 12]%Z
  /\ exists out,
       Htuse.calculate_heat_loss_per_year
         [(10%Z, Fin 100); (11%Z, Fin 0); (12%Z, Fin 50)]
         Htuse.DELTA_T_BY_MONTH Htuse.HOURS_PER_MONTH = inr out
       /\ index out = [0; 1; 2]%Z
       /\ series_feq out [(0%Z, Fin 5977); (1%Z, Fin 0); (2%Z, Fin 2988)].
Proof.
  split; [eexists; vm_compute; reflexivity|].
  split; [reflexivity|].
  eexists. split; [vm_compute; reflexivity|].
  split; [reflexivity|].
  repeat (constructor; [split; [reflexivity | vm_compute; reflexivity]|]).
  constructor.
Qed.

#[export] Instance div_Proper : Proper (feq ==> feq ==> feq) div.
Proof.
  intros [a|] [b|] E1 [c|] [d|] E2; simpl in *; try tauto.
  rewrite (Qeqb_comp _ _ E2 _ _ (Qeq_refl 0)).
  destruct (Qeq_bool d 0); simpl; [exact I|].
  rewrite E1, E2. reflexivity.
Qed.

(** The twelve-month sum of solar gain x utilisation factor. *)
Lemma solar_total (sq : list Q) :
  length sq = 12%nat ->
  feq (sum (binop mul (Htuse.monthly sq) Htuse.UTILISATION_FACTOR))
    (Fin (HtSpec.sum_over Htuse.months
            (fun m => month_value (Htuse.monthly sq) m
                      * month_value Htuse.UTILISATION_FACTOR m)%Q)).
Proof.
  intros Hs.
  do 12 (destruct sq as [|? sq]; [discriminate Hs|]).
  destruct sq; [|discriminate Hs].
  cbv [HtSpec.sum_over Htuse.months fold_right month_value get
       Htuse.monthly Htuse.UTILISATION_FACTOR combine map
       label_eqb string_Label String.eqb Ascii.eqb Bool.eqb
       sum binop index_equals index values nansum fold_left fst snd
       andb mul add lift2 feq].
  ring.
Qed.

(** C9.  For every table of floor and window areas and twelve monthly
    solar gains, [calculate_useful_gains_per_year] returns, under the index
    of the table and for each dwelling,
    (window_area / 6) x (sum over the twelve months of solar gain x
    utilisation factor) x 1000 / 24 + floor_area x light_gain_value;
    the default of light_gain_value is 8. *)
Theorem C9_useful_gains_per_year_formula {D} (t : Series Z D)
  (floor_area window_area : D -> float) (sq : list Q)
  (light_gain_value : float) :
  length sq = 12%nat ->
  series_feq
    (Htuse.calculate_useful_gains_per_year
       (map_values floor_area t) (map_values window_area t)
       (Htuse.monthly sq) light_gain_value)
    (map_values
       (fun d => HtSpec.useful_gains (floor_area d) (window_area d)
                   (Htuse.monthly sq) light_gain_value) t)
  /\ Htuse.default_light_gain_value = Fin 8.
Proof.
  intros Hs. split; [|reflexivity].
  unfold Htuse.calculate_useful_gains_per_year.
  rewrite !map_values_map_values, binop_cols.
  apply series_feq_map_values. intros r _.
  unfold HtSpec.useful_gains.
  apply add_Proper; [|reflexivity].
  apply div_Proper; [|reflexivity].
  apply mul_Proper; [|reflexivity].
  apply mul_Proper; [reflexivity|].
  apply solar_total, Hs.
Qed.

Lemma C9_useful_gains_per_year_witness :
  series_feq
    (Htuse.calculate_useful_gains_per_year
       (map_values fst [(4%Z, (Fin 100, Fin 12)); (9%Z, (Fin 80, Fin 0))])
       (map_values snd [(4%Z, (Fin 100, Fin 12)); (9%Z, (Fin 80, Fin 0))])
       (Htuse.monthly [0.63; 1.12; 1.7; 2.35; 2.96; 2.99;
                       2.79; 2.54; 1.99; 1.37; 0.8; 0.55])
       Htuse.default_light_gain_value)
    (map_values
       (fun d => HtSpec.useful_gains (fst d) (snd d)
                   (Htuse.monthly [0.63; 1.12; 1.7; 2.35; 2.96; 2.99;
                                   2.79; 2.54; 1.99; 1.37; 0.8; 0.55])
                   Htuse.default_light_gain_value)
       [(4%Z, (Fin 100, Fin 12)); (9%Z, (Fin 80, Fin 0))])
  /\ Htuse.default_light_gain_value = Fin 8.
Proof.
  apply (@C9_useful_gains_per_year_formula (float * float)
           [(4%Z, (Fin 100, Fin 12)); (9%Z, (Fin 80, Fin 0))] fst snd
           [0.63; 1.12; 1.7; 2.35; 2.96; 2.99;
            2.79; 2.54; 1.99; 1.37; 0.8; 0.55]
           Htuse.default_light_gain_value).
  reflexivity.
Defined.

Lemma div_by_constant (a k : Q) :
  Qeq_bool k 0 = false -> (Fin a / Fin k)%float = Fin (a / k).
Proof. intros E. cbn [div]. rewrite E. reflexivity. Qed.

(** C10.  For every table of heat losses and useful gains,
    [calculate_heat_use] returns, under the index of the table and for each
    dwelling, (heat_loss - useful_gains) / 0.913 x 24 x 243 / 1000.  The
    function has no error result: subtraction, division by a non-zero
    constant and multiplication are all it does, and it answers with a
    Series even where a value is missing or the two indexes differ. *)
Theorem C10_heat_use_formula {D} (t : Series Z D)
  (monthly_heat_loss monthly_useful_gains : D -> float) :
  series_feq
    (Htuse.calculate_heat_use
       (map_values monthly_heat_loss t) (map_values monthly_useful_gains t))
    (map_values
       (fun d => HtSpec.heat_use (monthly_heat_loss d)
                   (monthly_useful_gains d)) t)
  /\ Htuse.calculate_heat_use [(0%Z, Fin 5000); (1%Z, NaN)]
       [(1%Z, Fin 300); (7%Z, Fin 400)]
     = [(0%Z, NaN); (1%Z, NaN); (7%Z, NaN)].
Proof.
  split; [|vm_compute; reflexivity].
  unfold Htuse.calculate_heat_use.
  rewrite binop_cols, !map_values_map_values.
  apply series_feq_map_values. intros r _. unfold HtSpec.heat_use.
  destruct (monthly_heat_loss (snd r)) as [a|],
           (monthly_useful_gains (snd r)) as [b|];
    try exact I.
  cbn [sub lift2]. rewrite !div_by_constant by reflexivity.
  cbn [mul lift2]. rewrite !div_by_constant by reflexivity.
  cbn [feq]. field.
Qed.

(* ================================================================== *)
(** * Properties beyond the claims *)

(** ** Stages 1 to 3 *)

Lemma Forall2_map_values_in {L D} (P : L * D -> L * float -> Prop)
  (f : D -> float) (t : Series L D) :
  (forall r, In r t -> P r (fst r, f (snd r))) ->
  Forall2 P t (map_values f t).
Proof.
  intros HP. unfold map_values. apply Forall2_map_r_in. exact HP.
Qed.

Lemma no_zero_volume (l : list Stock.dwelling) :
  Forall (fun d => ~ Spec.is_zero (Stock.building_volume d)) l ->
  existsb volume_is_zero l = false.
Proof.
  intros Hv. destruct (existsb volume_is_zero l) eqn:E; [|reflexivity].
  apply existsb_volume_is_zero in E. rewrite Exists_exists in E.
  destruct E as [d [Hd Hz]]. rewrite Forall_forall in Hv.
  exfalso. exact (Hv d Hd Hz).
Qed.

(** X1.  On a table without a zero volume the openings stage raises
    nothing and answers under the index of the table, whatever its labels:
    for each dwelling the four openings terms count x rate / volume plus the
    draught-lobby term. *)
Theorem openings_stage_keeps_index (t : Stock.table) :
  Forall (fun d => ~ Spec.is_zero (Stock.building_volume d)) (values t) ->
  exists out,
    Stock.calculate_infiltration_rate_due_to_openings t = inr out
    /\ index out = index t
    /\ out = map_values Spec.openings t.
Proof.
  intros Hv. rewrite openings_table, (no_zero_volume Hv).
  eexists. split; [reflexivity|].
  split; [apply index_map_values|].
  apply map_values_ext_in. intros r _. apply openings_spec.
Qed.

Lemma openings_stage_keeps_index_witness :
  exists out,
    Stock.calculate_infiltration_rate_due_to_openings Examples.relabelled
    = inr out
    /\ index out = index Examples.relabelled
    /\ out = map_values Spec.openings Examples.relabelled.
Proof.
  apply (openings_stage_keeps_index Examples.relabelled).
  repeat (constructor; [cbn; intros E; discriminate E|]). constructor.
Defined.

Lemma structure_stage_index_is_fresh_witness :
  index [(0%Z, Fin 0.60000000); (1%Z, Fin 0.45)]
  = range_index (length Examples.relabelled).
Proof.
  apply (@structure_stage_index_is_fresh Examples.relabelled
           [(0%Z, Fin 0.60000000); (1%Z, Fin 0.45)]).
  vm_compute. reflexivity.
Defined.

Lemma infiltration_rate_default_index_witness :
  exists out,
    Stock.calculate_infiltration_rate
      (Stock.of_rows [Examples.terrace; Examples.tested]) = inr out
    /\ series_feq out
         (map_values Spec.infiltration_rate
            (Stock.of_rows [Examples.terrace; Examples.tested])).
Proof.
  apply (@infiltration_rate_default_index
           [Examples.terrace; Examples.tested]).
  - repeat (constructor; [cbn; intros E; discriminate E|]). constructor.
  - repeat (constructor; [cbn; auto 10|]). constructor.
  - repeat (constructor; [cbn; auto 10|]). constructor.
Defined.

(** X4.  The volume check comes first: a table with a zero volume gets
    [DivisionByZero] whatever else is wrong with it. *)
Theorem zero_volume_is_reported_first (t : Stock.table) :
  Exists (fun d => Spec.is_zero (Stock.building_volume d)) (values t) ->
  Stock.calculate_infiltration_rate t
  = inl (DivisionByZero Vent.zero_volume_message).
Proof.
  intros Hz. rewrite infiltration_table.
  apply existsb_volume_is_zero in Hz. rewrite Hz. reflexivity.
Qed.

Lemma zero_volume_is_reported_first_witness :
  Stock.calculate_infiltration_rate
    (Stock.of_rows
       [Examples.terrace;
        Examples.with_volume (Fin 0)
          (Examples.with_method "open_window" Examples.tested)])
  = inl (DivisionByZero Vent.zero_volume_message).
Proof.
  apply zero_volume_is_reported_first.
  apply Exists_cons_tl. apply Exists_cons_hd. vm_compute. reflexivity.
Defined.

(** X5.  With no zero volume, an unknown structure type is reported with the
    structure-type message, also when a suspended-floor type is unknown
    too. *)
Theorem structure_type_is_reported_before_floor (t : Stock.table) :
  Forall (fun d => ~ Spec.is_zero (Stock.building_volume d)) (values t) ->
  Exists (fun d => ~ In (Stock.structure_type d)
                        Vent.acceptable_structure_types) (values t) ->
  Stock.calculate_infiltration_rate t
  = inl (ValueError Vent.structure_type_message).
Proof.
  intros Hv Hs. rewrite infiltration_table, (no_zero_volume Hv).
  apply forallb_accepted_false in Hs.
  unfold structure_type_ok. rewrite Hs. reflexivity.
Qed.

Lemma structure_type_is_reported_before_floor_witness :
  Stock.calculate_infiltration_rate
    [(4%Z, Examples.terrace);
     (6%Z, {| Stock.no_sides_sheltered := Fin 1;
              Stock.building_volume := Fin 250;
              Stock.no_chimneys := Fin 0;
              Stock.no_open_flues := Fin 0;
              Stock.no_fans := Fin 0;
              Stock.no_room_heaters := Fin 0;
              Stock.is_draught_lobby := "YES";
              Stock.permeability_test_result := Fin 0;
              Stock.no_storeys := Fin 1;
              Stock.percentage_draught_stripped := Fin 0;
              Stock.is_floor_suspended := "carpet";
              Stock.structure_type := "brick";
              Stock.ventilation_method := "natural_ventilation";
              Stock.heat_exchanger_efficiency := Fin 0;
              Stock.infiltration_rate := Fin 0 |})]
  = inl (ValueError Vent.structure_type_message).
Proof.
  apply structure_type_is_reported_before_floor.
  - repeat (constructor; [cbn; intros E; discriminate E|]). constructor.
  - apply Exists_cons_tl. apply Exists_cons_hd. cbn.
    intros Hin. repeat (destruct Hin as [Hin|Hin]; [discriminate Hin|]).
    exact Hin.
Defined.

(** ** Bounds of the single terms *)

Lemma Forall2_rows_map_values {L D} (P : D -> float -> Prop) (f : D -> float)
  (t : Series L D) :
  (forall r, In r t -> P (snd r) (f (snd r))) ->
  Forall2 (fun r1 r2 => fst r1 = fst r2 /\ P (snd r1) (snd r2))
    t (map_values f t).
Proof.
  intros HP. apply Forall2_map_values_in. intros r Hr.
  split; [reflexivity | apply HP, Hr].
Qed.



(** X7.  For a non-negative rate and between 0 and 4 sheltered sides, the
    shelter adjustment returns, under the label of the row, a rate between
    70 % of the input and the input itself; with no sheltered side it
    returns the input. *)
Theorem shelter_adjustment_bounds (t : Series Z (Q * Q)) :
  Forall (fun r => 0 <= fst (snd r) /\ 0 <= snd (snd r) /\ snd (snd r) <= 4)
    t ->
  Forall2
    (fun r1 r2 =>
       fst r1 = fst r2
       /\ within (0.7 * fst (snd r1)) (fst (snd r1)) (snd r2)
       /\ (snd (snd r1) == 0 -> feq (snd r2) (Fin (fst (snd r1)))))
    t
    (Vent.calculate_infiltration_rate_adjustment_factor
       (map_values (fun d => Fin (fst d)) t)
       (map_values (fun d => Fin (snd d)) t)).
Proof.
  intros Ht. unfold Vent.calculate_infiltration_rate_adjustment_factor.
  rewrite map_values_map_values, binop_cols.
  apply Forall2_map_values_in. intros [l [x n]] Hr.
  rewrite Forall_forall in Ht. specialize (Ht _ Hr).
  cbn [fst snd mul sub lift2 within feq] in *.
  destruct Ht as [Hx [Hn0 Hn4]].
  split; [reflexivity|]. split.
  - split; nra.
  - intros E. rewrite E. ring.
Qed.

Lemma shelter_adjustment_bounds_witness :
  Forall2
    (fun r1 r2 =>
       fst r1 = fst r2
       /\ within (0.7 * fst (snd r1)) (fst (snd r1)) (snd r2)
       /\ (snd (snd r1) == 0 -> feq (snd r2) (Fin (fst (snd r1)))))
    [(2%Z, (0.85, 2)); (9%Z, (0.6, 0))]
    (Vent.calculate_infiltration_rate_adjustment_factor
       (map_values (fun d => Fin (fst d)) [(2%Z, (0.85, 2)); (9%Z, (0.6, 0))])
       (map_values (fun d => Fin (snd d))
          [(2%Z, (0.85, 2)); (9%Z, (0.6, 0))])).
Proof.
  apply (@shelter_adjustment_bounds [(2%Z, (0.85, 2)); (9%Z, (0.6, 0))]).
  repeat (constructor; [cbn; lra|]). constructor.
Defined.

Lemma map_values_id {L A} (s : Series L A) : map_values (fun a => a) s = s.
Proof.
  unfold map_values. induction s as [|[l a] s IH]; simpl;
    [reflexivity | now rewrite IH].
Qed.

(** X8.  With the default rate for "unknown", an unknown structure is
    treated as masonry: renaming every "unknown" to "masonry" changes
    neither the check nor a single rate. *)
Theorem unknown_structure_is_masonry (structure_type : Series Z string) :
  Vent.calculate_infiltration_rate_due_to_structure_type structure_type
    Vent.default_unknown_structure_infiltration_rate
  = Vent.calculate_infiltration_rate_due_to_structure_type
      (map_values unknown_as_masonry structure_type)
      Vent.default_unknown_structure_infiltration_rate.
Proof.
  unfold Vent.calculate_infiltration_rate_due_to_structure_type.
  rewrite all_in1d_unique.
  assert (Eplain :
    all (in1d (unique structure_type) Vent.acceptable_structure_types)
    = forallb (fun d => accepted Vent.acceptable_structure_types d)
        (values structure_type)).
  { rewrite <- (map_values_id structure_type) at 1.
    rewrite all_in1d_unique. reflexivity. }
  rewrite Eplain.
  assert (Eok :
    forallb (fun d => accepted Vent.acceptable_structure_types d)
      (values structure_type)
    = forallb (fun d => accepted Vent.acceptable_structure_types
                          (unknown_as_masonry d))
        (values structure_type)).
  { apply forallb_pointwise. intros k. unfold unknown_as_masonry.
    destruct (String.eqb_spec k "unknown") as [->|_]; reflexivity. }
  rewrite Eok. clear Eplain Eok.
  destruct (forallb
              (fun d => accepted Vent.acceptable_structure_types
                          (unknown_as_masonry d))
              (values structure_type)); [|reflexivity].
  cbn [negb]. unfold ret. f_equal.
  unfold to_float, map_dict. rewrite !map_values_map_values.
  apply map_values_ext_in. intros r _. unfold unknown_as_masonry.
  destruct (String.eqb (snd r) "unknown") eqn:E.
  - apply String.eqb_eq in E. rewrite E. reflexivity.
  - reflexivity.
Qed.

Lemma square_nonneg (y : Q) : 0 <= y * y.
Proof.
  destruct (Qlt_le_dec y 0).
  - setoid_replace (y * y) with ((- y) * (- y)) by ring.
    apply Qmult_le_0_compat; lra.
  - apply Qmult_le_0_compat; lra.
Qed.

(** ** Bounds of the ventilation formulas *)

(** X9.  The natural-ventilation rate of a finite infiltration rate is a
    number, never below 0.5 and never below the infiltration rate. *)
Theorem natural_rate_lower_bounds (s : Series Z Q) :
  Forall2
    (fun r1 r2 =>
       fst r1 = fst r2
       /\ at_least 0.5 (snd r2) /\ at_least (snd r1) (snd r2))
    s (Vent._calculate_natural_ventilation_air_rate_change
         (map_values Fin s)).
Proof.
  rewrite natural_map_values. apply Forall2_map_values_in.
  intros [l x] _. cbn [fst snd]. split; [reflexivity|].
  unfold Dwelling.natural. cbn [gt].
  destruct (Qle_bool x 1) eqn:E; cbn [negb].
  - apply Qle_bool_iff in E.
    cbn [power add mul lift2 at_least]. simpl Qpower.
    pose proof (square_nonneg x) as H0.
    pose proof (square_nonneg (x - 1)) as H1.
    assert (E1 : (x - 1) * (x - 1) == x * x - 2 * x + 1) by ring.
    rewrite E1 in H1. split; lra.
  - assert (Hx : 1 < x).
    { apply Qnot_le_lt. intros Hle. apply Qle_bool_iff in Hle. congruence. }
    cbn [at_least]. split; lra.
Qed.

(** X10.  The rate with positive input ventilation from outside is the
    larger of 0.5 and the infiltration rate plus 0.25, under the label of
    its row. *)
Theorem outside_rate_is_a_maximum (s : Series Z Q) :
  Forall2
    (fun r1 r2 =>
       fst r1 = fst r2
       /\ at_least 0.5 (snd r2) /\ at_least (snd r1 + 0.25) (snd r2)
       /\ (feq (snd r2) (Fin 0.5) \/ feq (snd r2) (Fin (snd r1 + 0.25))))
    s (Vent._calculate_outside_ventilation_air_rate_change
         (map_values Fin s)).
Proof.
  rewrite outside_map_values. apply Forall2_map_values_in.
  intros [l x] _. cbn [fst snd add lift2 maximum]. split; [reflexivity|].
  destruct (Qle_bool 0.5 (x + 0.25)) eqn:E; cbn [at_least feq].
  - apply Qle_bool_iff in E. repeat split; lra.
  - assert (Hx : x + 0.25 < 0.5).
    { apply Qnot_le_lt. intros Hle. apply Qle_bool_iff in Hle. congruence. }
    repeat split; lra.
Qed.

(** X11.  With a heat-exchanger efficiency between 0 and 100 the
    heat-recovery rate lies between the infiltration rate and the
    infiltration rate plus 0.5; at efficiency 0 it is the rate of mechanical
    ventilation without heat recovery, at efficiency 100 the infiltration
    rate itself. *)
Theorem heat_recovery_rate_bounds (t : Series Z (Q * Q)) :
  Forall (fun r => 0 <= snd (snd r) /\ snd (snd r) <= 100) t ->
  Forall2
    (fun r1 r2 =>
       fst r1 = fst r2
       /\ within (fst (snd r1)) (fst (snd r1) + 0.5) (snd r2)
       /\ (snd (snd r1) == 0 -> feq (snd r2) (Fin (fst (snd r1) + 0.5)))
       /\ (snd (snd r1) == 100 -> feq (snd r2) (Fin (fst (snd r1)))))
    t
    (Vent._calculate_heat_recovery_ventilation_air_rate_change
       (map_values (fun d => Fin (fst d)) t)
       (map_values (fun d => Fin (snd d)) t)).
Proof.
  intros Ht.
  unfold Vent._calculate_heat_recovery_ventilation_air_rate_change.
  rewrite map_values_map_values, binop_cols.
  apply Forall2_map_values_in. intros [l [x e]] Hr.
  rewrite Forall_forall in Ht. specialize (Ht _ Hr).
  cbn [fst snd] in *. rewrite div_by_constant by reflexivity.
  cbn [add mul sub lift2 within feq].
  assert (E : e / 100 == e * (1 # 100)) by field.
  split; [reflexivity|]. rewrite E.
  split; [split; lra|]. split; intros E0; rewrite E0; ring.
Qed.

Lemma heat_recovery_rate_bounds_witness :
  Forall2
    (fun r1 r2 =>
       fst r1 = fst r2
       /\ within (fst (snd r1)) (fst (snd r1) + 0.5) (snd r2)
       /\ (snd (snd r1) == 0 -> feq (snd r2) (Fin (fst (snd r1) + 0.5)))
       /\ (snd (snd r1) == 100 -> feq (snd r2) (Fin (fst (snd r1)))))
    [(1%Z, (0.7, 0)); (2%Z, (0.7, 100)); (5%Z, (1.2, 85))]
    (Vent._calculate_heat_recovery_ventilation_air_rate_change
       (map_values (fun d => Fin (fst d))
          [(1%Z, (0.7, 0)); (2%Z, (0.7, 100)); (5%Z, (1.2, 85))])
       (map_values (fun d => Fin (snd d))
          [(1%Z, (0.7, 0)); (2%Z, (0.7, 100)); (5%Z, (1.2, 85))])).
Proof.
  apply (@heat_recovery_rate_bounds
           [(1%Z, (0.7, 0)); (2%Z, (0.7, 100)); (5%Z, (1.2, 85))]).
  repeat (constructor; [cbn; lra|]). constructor.
Defined.

(** X12.  The loft formula divides by the volume without a check: for a
    dwelling of volume zero it raises nothing and its rate is not a finite
    number; for any other volume it is the natural-ventilation rate plus
    20 / volume. *)
Theorem loft_rate_divides_by_volume (t : Series Z (Q * Q)) :
  Forall2
    (fun r1 r2 =>
       fst r1 = fst r2
       /\ (snd (snd r1) == 0 -> is_finite (snd r2) = false)
       /\ (~ snd (snd r1) == 0 ->
           feq (snd r2)
             (Fin (Spec.natural (fst (snd r1)) + 20 / snd (snd r1)))))
    t
    (Vent._calculate_loft_ventilation_air_rate_change
       (map_values (fun d => Fin (fst d)) t)
       (map_values (fun d => Fin (snd d)) t)).
Proof.
  unfold Vent._calculate_loft_ventilation_air_rate_change.
  rewrite natural_map_values, map_values_map_values, binop_cols.
  apply Forall2_map_values_in. intros [l [x v]] _. cbn [fst snd].
  split; [reflexivity|].
  pose proof (natural_spec x) as Hn.
  destruct (Dwelling.natural (Fin x)) as [n|]; [|contradiction].
  cbn [feq] in Hn. cbn [div].
  destruct (Qeq_bool v 0) eqn:E.
  - apply Qeq_bool_iff in E. split; [reflexivity|].
    intros Hv. contradiction.
  - split.
    + intros Hv. apply Qeq_bool_iff in Hv. congruence.
    + intros _. cbn [add lift2 feq]. rewrite Hn. reflexivity.
Qed.

(** ** Stage 4 and the heat loss *)

(** X13.  On a table with accepted methods whose labels increase, the
    effective air change rate feeds the ventilation heat loss row for row:
    each dwelling gets volume x 0.33 x its own rate, under its own label. *)
Theorem ventilation_heat_loss_of_table (t : Stock.table) :
  Forall (fun d => In (Stock.ventilation_method d)
                     Vent.acceptable_ventilation_methods) (values t) ->
  StronglySorted Z.lt (index t) ->
  exists rate,
    Stock.calculate_effective_air_rate_change t = inr rate
    /\ Vent.calculate_ventilation_heat_loss
         (Stock.col Stock.building_volume t) rate
         Vent.default_ventilation_heat_loss_constant
       = map_values
           (fun d => (Stock.building_volume d * Fin 0.33
                      * Dwelling.effective d)%float) t.
Proof.
  intros Hok Hinc. rewrite effective_table.
  pose proof (proj2 (forallb_accepted_Forall _ _ _) Hok) as Hb.
  unfold ventilation_method_ok. rewrite Hb. cbn [negb].
  eexists. split; [reflexivity|].
  rewrite <- (index_map_values Dwelling.effective t) in Hinc.
  rewrite (@sort_index_of_perm _ _ (map_values Dwelling.effective t)).
  - unfold Vent.calculate_ventilation_heat_loss, Stock.col.
    rewrite map_values_map_values, binop_cols. reflexivity.
  - apply effective_groups_perm, Hok.
  - apply strictly_sorted_rows_of_index, Hinc.
Qed.

Lemma ventilation_heat_loss_of_table_witness :
  exists rate,
    Stock.calculate_effective_air_rate_change Examples.five_methods
    = inr rate
    /\ Vent.calculate_ventilation_heat_loss
         (Stock.col Stock.building_volume Examples.five_methods) rate
         Vent.default_ventilation_heat_loss_constant
       = map_values
           (fun d => (Stock.building_volume d * Fin 0.33
                      * Dwelling.effective d)%float) Examples.five_methods.
Proof.
  apply (ventilation_heat_loss_of_table Examples.five_methods).
  - repeat (constructor; [cbn; auto 10|]). constructor.
  - repeat (constructor; [|repeat (constructor; [cbn; lia|]); constructor]).
    constructor.
Defined.

Lemma index_equals_eq (i j : list Z) : index_equals i j = true -> i = j.
Proof.
  revert j. induction i as [|x i IH]; intros [|y j] E; simpl in E;
    try discriminate; [reflexivity|].
  apply andb_true_iff in E. destruct E as [Exy Eij].
  apply Z.eqb_eq in Exy. subst y. f_equal. apply IH, Eij.
Qed.

Lemma all_in1d_unique_series {L} (acceptable : list string)
  (s : Series L string) :
  all (in1d (unique s) acceptable)
  = forallb (accepted acceptable) (values s).
Proof.
  rewrite <- (map_values_id s) at 1. rewrite all_in1d_unique.
  reflexivity.
Qed.

(** X14.  When the infiltration-rate Series has a label that the
    ventilation-method Series lacks, the selection by method cannot be
    aligned and [calculate_effective_air_rate_change] raises, also with
    every method accepted. *)
Theorem effective_air_rate_change_needs_aligned_methods
  (ventilation_method : Series Z string)
  (building_volume infiltration_rate heat_exchanger_efficiency
     : Series Z float) (l : Z) :
  Forall (fun m => In m Vent.acceptable_ventilation_methods)
    (values ventilation_method) ->
  In l (index infiltration_rate) ->
  ~ In l (index ventilation_method) ->
  raises (Vent.calculate_effective_air_rate_change ventilation_method
            building_volume infiltration_rate heat_exchanger_efficiency).
Proof.
  intros Hok Hin Hout.
  unfold Vent.calculate_effective_air_rate_change.
  rewrite all_in1d_unique_series.
  assert (Hb : forallb (accepted Vent.acceptable_ventilation_methods)
                 (values ventilation_method) = true).
  { apply forallb_forall. intros m Hm. apply accepted_In.
    rewrite Forall_forall in Hok. apply Hok, Hm. }
  rewrite Hb. cbn [negb].
  unfold getitem_bool at 1. unfold Vent.method_is.
  rewrite !index_map_values.
  destruct (index_equals (index ventilation_method)
              (index infiltration_rate)) eqn:Eeq.
  { apply index_equals_eq in Eeq. rewrite Eeq in Hout. contradiction. }
  assert (Hall :
    forallb (fun l0 => existsb (label_eqb l0) (index ventilation_method))
      (index infiltration_rate) = false).
  { destruct (forallb _ (index infiltration_rate)) eqn:E; [|reflexivity].
    rewrite forallb_forall in E. specialize (E l Hin).
    apply existsb_Zeqb in E. contradiction. }
  rewrite Hall. apply raises_inl.
Qed.

Lemma effective_air_rate_change_needs_aligned_methods_witness :
  raises (Vent.calculate_effective_air_rate_change
            [(0%Z, "natural_ventilation"%string)]
            [(0%Z, Fin 300); (1%Z, Fin 250)]
            [(0%Z, Fin 0.8); (1%Z, Fin 0.6)]
            [(0%Z, Fin 0); (1%Z, Fin 0)]).
Proof.
  apply (@effective_air_rate_change_needs_aligned_methods
           [(0%Z, "natural_ventilation"%string)]
           [(0%Z, Fin 300); (1%Z, Fin 250)]
           [(0%Z, Fin 0.8); (1%Z, Fin 0.6)]
           [(0%Z, Fin 0); (1%Z, Fin 0)] 1%Z).
  - repeat (constructor; [cbn; auto 10|]). constructor.
  - cbn. auto.
  - cbn. intros [E|[]]. discriminate E.
Defined.

(** ** The heat-transfer component beyond the claims *)

Lemma length_repeat_each {A} (a : list A) (n : nat) :
  length (repeat_each a n) = (length a * n)%nat.
Proof.
  unfold repeat_each. apply length_flat_map_const. intros x.
  apply repeat_length.
Qed.

(** X15.  The note of the source, that all arrays must be the same length,
    is enforced by NumPy: with one dwelling or more and monthly delta-T and
    hours of different lengths (each of two entries or more), the product
    of the arrays cannot be formed and [calculate_heat_loss_per_year]
    raises the shape error. *)
Theorem heat_loss_needs_month_arrays_of_one_length
  (heat_loss_coefficient : Series Z float)
  (delta_t hours : Series string float) :
  heat_loss_coefficient <> [] ->
  length delta_t <> length hours ->
  (2 <= length delta_t)%nat -> (2 <= length hours)%nat ->
  exists msg,
    Htuse._calculate_heat_loss_kwh heat_loss_coefficient delta_t hours
    = inl (ValueError msg)
    /\ Htuse.calculate_heat_loss_per_year heat_loss_coefficient delta_t hours
       = inl (ValueError msg).
Proof.
  intros Hne Hneq Hd Hh. eexists.
  assert (E : Htuse._calculate_heat_loss_kwh heat_loss_coefficient
                delta_t hours = inl shape_error).
  { unfold Htuse._calculate_heat_loss_kwh, Np.binop at 1.
    rewrite length_repeat_each, length_tile, !length_values.
    assert (Hn : (1 <= length heat_loss_coefficient)%nat).
    { destruct heat_loss_coefficient; [contradiction | simpl; lia]. }
    unfold broadcast_len.
    destruct (Nat.eqb_spec
                (length heat_loss_coefficient * length hours)
                (length heat_loss_coefficient * length delta_t)) as [E|_].
    { exfalso. apply Hneq. symmetry.
      apply (Nat.mul_cancel_l _ _ (length heat_loss_coefficient));
        [lia | exact E]. }
    destruct (Nat.eqb_spec
                (length heat_loss_coefficient * length hours) 1) as [E|_];
      [nia|].
    destruct (Nat.eqb_spec
                (length heat_loss_coefficient * length delta_t) 1) as [E|_];
      [nia|].
    reflexivity. }
  split; [exact E|].
  unfold Htuse.calculate_heat_loss_per_year. rewrite E. reflexivity.
Qed.

Lemma heat_loss_needs_month_arrays_of_one_length_witness :
  exists msg,
    Htuse._calculate_heat_loss_kwh [(0%Z, Fin 100)]
      Htuse.DELTA_T_BY_MONTH
      [("jan"%string, Fin 744); ("feb"%string, Fin 672)]
    = inl (ValueError msg)
    /\ Htuse.calculate_heat_loss_per_year [(0%Z, Fin 100)]
         Htuse.DELTA_T_BY_MONTH
         [("jan"%string, Fin 744); ("feb"%string, Fin 672)]
       = inl (ValueError msg).
Proof.
  apply (@heat_loss_needs_month_arrays_of_one_length
           [(0%Z, Fin 100)] Htuse.DELTA_T_BY_MONTH
           [("jan"%string, Fin 744); ("feb"%string, Fin 672)]).
  - discriminate.
  - vm_compute. discriminate.
  - vm_compute. lia.
  - vm_compute. lia.
Defined.

(** X16.  Monthly delta-T and hours of one length other than twelve do not
    fit the twelve month labels: with one dwelling or more
    [calculate_heat_loss_per_year] raises [ValueError] when it labels the
    array. *)
Theorem heat_loss_needs_twelve_months
  (heat_loss_coefficient : Series Z float)
  (delta_t hours : Series string float) :
  heat_loss_coefficient <> [] ->
  length delta_t = length hours -> length hours <> 12%nat ->
  exists msg,
    Htuse.calculate_heat_loss_per_year heat_loss_coefficient delta_t hours
    = inl (ValueError msg).
Proof.
  intros Hne Hlen H12. eexists.
  unfold Htuse.calculate_heat_loss_per_year.
  rewrite heat_loss_kwh_rows by exact Hlen. rewrite bind_ret.
  unfold of_array_index at 1.
  rewrite (@length_flat_map_const _ _ _ (length hours)).
  2:{ intros c. rewrite length_kwh_row; rewrite !length_values; auto. }
  rewrite length_tile, length_values. cbn [Htuse.months length].
  assert (Hn : (1 <= length heat_loss_coefficient)%nat).
  { destruct heat_loss_coefficient; [contradiction | simpl; lia]. }
  destruct (Nat.eqb_spec (length heat_loss_coefficient * length hours)
              (length heat_loss_coefficient * 12)) as [E|_];
    [|reflexivity].
  exfalso. apply H12.
  apply (Nat.mul_cancel_l _ _ (length heat_loss_coefficient));
    [lia | exact E].
Qed.

Lemma heat_loss_needs_twelve_months_witness :
  exists msg,
    Htuse.calculate_heat_loss_per_year [(0%Z, Fin 100); (1%Z, Fin 80)]
      [("jan"%string, Fin 12.42); ("feb"%string, Fin 12.23)]
      [("jan"%string, Fin 744); ("feb"%string, Fin 672)]
    = inl (ValueError msg).
Proof.
  apply (@heat_loss_needs_twelve_months
           [(0%Z, Fin 100); (1%Z, Fin 80)]
           [("jan"%string, Fin 12.42); ("feb"%string, Fin 12.23)]
           [("jan"%string, Fin 744); ("feb"%string, Fin 672)]).
  - discriminate.
  - reflexivity.
  - vm_compute. discriminate.
Defined.

Ltac twelve l H :=
  do 12 (destruct l as [|? l]; [discriminate H|]);
  destruct l; [|discriminate H].

Lemma filter_month_block_of (dq hq : list Q) (c : float) (m : string) :
  length dq = 12%nat -> length hq = 12%nat -> In m Htuse.heating_months ->
  filter (fun r => String.eqb (fst r) m) (month_block_of dq hq c)
  = [(m, month_kwh_of dq hq c m)].
Proof.
  intros Hd Hh Hm. twelve dq Hd. twelve hq Hh.
  cbn [Htuse.heating_months In] in Hm.
  destruct Hm as [E|[E|[E|[E|[E|[E|[E|[E|[]]]]]]]]]; subst m; reflexivity.
Qed.

Lemma index_month_block_of (dq hq : list Q) (c : float) :
  length dq = 12%nat -> length hq = 12%nat ->
  index (month_block_of dq hq c) = Htuse.months.
Proof.
  intros Hd Hh. twelve dq Hd. twelve hq Hh. reflexivity.
Qed.

(** The pipeline of [calculate_heat_loss_per_year] for coefficients that
    may be missing. *)
Lemma heat_loss_per_year_rows_of (cs : Series Z float) (dq hq : list Q) :
  cs <> [] -> length dq = 12%nat -> length hq = 12%nat ->
  Htuse.calculate_heat_loss_per_year
    cs (Htuse.monthly dq) (Htuse.monthly hq)
  = ret (of_array
           (map (fun c => round (nansum (map (month_kwh_of dq hq c)
                                            Htuse.heating_months)))
              (values cs))).
Proof.
  intros Hne Hd Hh. unfold Htuse.calculate_heat_loss_per_year.
  assert (Hlen : length (Htuse.monthly dq) = length (Htuse.monthly hq)).
  { unfold Htuse.monthly. rewrite !length_combine, !length_map, Hd, Hh.
    reflexivity. }
  assert (Hrow : forall c,
    length (kwh_row (values (Htuse.monthly dq)) (values (Htuse.monthly hq)) c)
    = 12%nat).
  { intros c. rewrite length_kwh_row.
    - unfold Htuse.monthly. now rewrite length_values, length_combine,
        length_map, Hh.
    - now rewrite !length_values. }
  rewrite heat_loss_kwh_rows by exact Hlen. rewrite bind_ret.
  rewrite <- (length_values cs).
  set (l := values cs).
  assert (Hl : l <> []).
  { subst l. destruct cs; [contradiction | discriminate]. }
  unfold of_array_index at 1.
  rewrite length_tile, (@length_flat_map_const _ _ _ 12%nat) by exact Hrow.
  cbn [Htuse.months length]. rewrite Nat.eqb_refl, bind_ret.
  change ["jan"; "feb"; "mar"; "apr"; "may"; "jun";
          "jul"; "aug"; "sep"; "oct"; "nov"; "dec"]%string
    with Htuse.months.
  rewrite combine_tile_flat_map by exact Hrow.
  fold (month_block_of dq hq).
  unfold loc_list.
  assert (Hcheck :
    forallb (fun m => existsb (label_eqb m)
                        (index (flat_map (month_block_of dq hq) l)))
      Htuse.heating_months = true).
  { destruct l as [|c0 l']; [contradiction|].
    cbn [flat_map]. unfold index. rewrite map_app.
    fold (index (month_block_of dq hq c0)).
    rewrite index_month_block_of by assumption.
    apply forallb_forall. intros m Hm. rewrite existsb_app.
    apply orb_true_iff. left.
    cbn [Htuse.heating_months In] in Hm.
    destruct Hm as [E|[E|[E|[E|[E|[E|[E|[E|[]]]]]]]]]; subst m;
      reflexivity. }
  rewrite Hcheck, bind_ret.
  assert (Hloc :
    flat_map (fun m => filter (fun r : string * float => label_eqb (fst r) m)
                         (flat_map (month_block_of dq hq) l))
      Htuse.heating_months
    = flat_map (fun m => map (fun c => (m, month_kwh_of dq hq c m)) l)
        Htuse.heating_months).
  { apply flat_map_ext_in. intros m Hm. rewrite filter_flat_map.
    rewrite <- flat_map_singleton. apply flat_map_ext_in. intros c _.
    apply filter_month_block_of; assumption. }
  rewrite Hloc. clear Hloc Hcheck.
  unfold cumcount. rewrite index_flat_map_const, values_flat_map_const.
  rewrite cumcount_from_blocks;
    [|exact NoDup_heating_months | intros m _; reflexivity].
  unfold of_array_index.
  rewrite length_tile, length_range_index.
  rewrite (@length_flat_map_const _ _ _ (length l))
    by (intros m; apply length_map).
  rewrite Nat.eqb_refl, bind_ret.
  rewrite combine_tile_flat_map
    by (intros m; rewrite length_map, length_range_index; reflexivity).
  rewrite sum_level0_blocks.
  - unfold of_array. rewrite length_map, combine_map_r.
    unfold map_values. rewrite map_map, combine_map_r. reflexivity.
  - apply NoDup_range_index.
  - apply length_range_index.
  - discriminate.
Qed.

(** X17.  A missing heat-loss coefficient does not come out as missing:
    its eight monthly values are skipped by the sum, and the dwelling gets
    0 kWh.  The other dwellings get their rounded heating-season sum, each
    in its own row. *)
Theorem missing_coefficient_gives_zero_heat_loss
  (cs : Series Z float) (dq hq : list Q) :
  cs <> [] -> length dq = 12%nat -> length hq = 12%nat ->
  exists out,
    Htuse.calculate_heat_loss_per_year
      cs (Htuse.monthly dq) (Htuse.monthly hq) = inr out
    /\ Forall2
         (fun c v =>
            match c with
            | NaN => v = Fin 0
            | Fin q =>
                feq v (Fin (inject_Z
                              (round_half_even
                                 (HtSpec.heat_loss_kwh q (Htuse.monthly dq)
                                    (Htuse.monthly hq)))))
            end)
         (values cs) (values out).
Proof.
  intros Hne Hd Hh. rewrite heat_loss_per_year_rows_of by assumption.
  eexists. split; [reflexivity|].
  rewrite values_of_array. apply Forall2_map_r_in. intros [q|] _.
  - change (month_kwh_of dq hq (Fin q)) with (month_kwh dq hq q).
    pose proof (nansum_heating_months dq hq q) as Hs.
    destruct (nansum (map (month_kwh dq hq q) Htuse.heating_months))
      as [x|]; [|contradiction].
    cbn [round feq] in *. rewrite (round_half_even_comp Hs). reflexivity.
  - reflexivity.
Qed.

Lemma missing_coefficient_gives_zero_heat_loss_witness :
  exists out,
    Htuse.calculate_heat_loss_per_year
      [(0%Z, Fin 100); (1%Z, NaN)]
      (Htuse.monthly [12.42; 12.23; 10.85; 9.65; 7.15; 4.85;
                      3.0; 3.28; 5.03; 7.71; 10.38; 11.77])
      (Htuse.monthly [744; 672; 744; 720; 744; 720;
                      744; 744; 720; 744; 720; 744]) = inr out
    /\ Forall2
         (fun c v =>
            match c with
            | NaN => v = Fin 0
            | Fin q =>
                feq v (Fin (inject_Z
                              (round_half_even
                                 (HtSpec.heat_loss_kwh q
                                    (Htuse.monthly
                                       [12.42; 12.23; 10.85; 9.65; 7.15;
                                        4.85; 3.0; 3.28; 5.03; 7.71;
                                        10.38; 11.77])
                                    (Htuse.monthly
                                       [744; 672; 744; 720; 744; 720;
                                        744; 744; 720; 744; 720; 744])))))
            end)
         [Fin 100; NaN] (values out).
Proof.
  apply (@missing_coefficient_gives_zero_heat_loss
           [(0%Z, Fin 100); (1%Z, NaN)]
           [12.42; 12.23; 10.85; 9.65; 7.15; 4.85;
            3.0; 3.28; 5.03; 7.71; 10.38; 11.77]
           [744; 672; 744; 720; 744; 720; 744; 744; 720; 744; 720; 744]).
  - discriminate.
  - reflexivity.
  - reflexivity.
Defined.

(** X18.  The heat use is not cut off at zero: for finite inputs it is a
    number, negative exactly when the useful gains exceed the heat loss and
    zero exactly when the two are equal. *)
Theorem heat_use_follows_the_sign_of_the_balance (t : Series Z (Q * Q)) :
  Forall2
    (fun r1 r2 =>
       fst r1 = fst r2
       /\ exists q,
            snd r2 = Fin q
            /\ (q < 0 <-> fst (snd r1) < snd (snd r1))
            /\ (q == 0 <-> fst (snd r1) == snd (snd r1)))
    t
    (Htuse.calculate_heat_use
       (map_values (fun d => Fin (fst d)) t)
       (map_values (fun d => Fin (snd d)) t)).
Proof.
  unfold Htuse.calculate_heat_use.
  rewrite binop_cols, !map_values_map_values.
  apply Forall2_map_values_in. intros [l [a b]] _. cbn [fst snd].
  split; [reflexivity|].
  cbn [sub lift2]. rewrite !div_by_constant by reflexivity.
  cbn [mul lift2]. eexists. split; [reflexivity|].
  assert (E : (a - b) / 0.913 / 1000 * 24 * 243 == (a - b) * (5832 # 913))
    by field.
  rewrite E. split; split; intros H; lra.
Qed.

Lemma nansum_from (l : list float) (a : Q) :
  exists q,
    fold_left (fun acc x => match x with
                            | Fin _ => add acc x
                            | NaN => acc
                            end) l (Fin a) = Fin q
    /\ q == a + fold_right (fun x acc => finite_part x + acc) 0 l.
Proof.
  revert a. induction l as [|[x|] l IH]; intros a; cbn [fold_left fold_right].
  - exists a. split; [reflexivity | ring].
  - cbn [add lift2 finite_part]. destruct (IH (a + x)) as [q [E Hq]].
    exists q. split; [exact E|]. rewrite Hq. ring.
  - cbn [finite_part]. destruct (IH a) as [q [E Hq]].
    exists q. split; [exact E|]. rewrite Hq. ring.
Qed.

Lemma finite_part_mul (v : float) (u : Q) :
  finite_part (v * Fin u)%float == finite_part v * u.
Proof. destruct v as [q|]; cbn [mul lift2 finite_part]; ring. Qed.

(** The twelve-month sum when monthly gains may be missing. *)
Lemma solar_total_of (vals : list float) :
  length vals = 12%nat ->
  feq (sum (binop mul (combine Htuse.months vals) Htuse.UTILISATION_FACTOR))
    (Fin (HtSpec.sum_over Htuse.months
            (fun m => month_value (combine Htuse.months vals) m
                      * month_value Htuse.UTILISATION_FACTOR m)%Q)).
Proof.
  intros Hv. unfold sum, nansum.
  destruct (nansum_from
              (values (binop mul (combine Htuse.months vals)
                         Htuse.UTILISATION_FACTOR)) 0) as [q [E Hq]].
  rewrite E. cbn [feq]. rewrite Hq. clear E Hq q.
  twelve vals Hv.
  cbv [HtSpec.sum_over Htuse.months fold_right month_value get
       Htuse.monthly Htuse.UTILISATION_FACTOR combine map
       label_eqb string_Label String.eqb Ascii.eqb Bool.eqb
       binop index_equals index values fst snd andb].
  rewrite !finite_part_mul. unfold finite_part. ring.
Qed.

(** X19.  A monthly solar gain that is missing is skipped by the sum over
    the months, so it counts as zero: the useful gains are the formula of
    the twelve months with 0 in its place, not a missing value. *)
Theorem missing_solar_gain_counts_as_zero {D} (t : Series Z D)
  (floor_area window_area : D -> float) (vals : list float)
  (light_gain_value : float) :
  length vals = 12%nat ->
  series_feq
    (Htuse.calculate_useful_gains_per_year
       (map_values floor_area t) (map_values window_area t)
       (combine Htuse.months vals) light_gain_value)
    (map_values
       (fun d =>
          (window_area d / Fin 6
           * Fin (HtSpec.sum_over Htuse.months
                    (fun m =>
                       (finite_part (get NaN m (combine Htuse.months vals))
                        * month_value Htuse.UTILISATION_FACTOR m)%Q))
           * Fin 1000 / Fin 24
           + floor_area d * light_gain_value)%float) t).
Proof.
  intros Hv. unfold Htuse.calculate_useful_gains_per_year.
  rewrite !map_values_map_values, binop_cols.
  apply series_feq_map_values. intros r _.
  apply add_Proper; [|reflexivity].
  apply div_Proper; [|reflexivity].
  apply mul_Proper; [|reflexivity].
  apply mul_Proper; [reflexivity|].
  apply solar_total_of, Hv.
Qed.

Lemma missing_solar_gain_counts_as_zero_witness :
  series_feq
    (Htuse.calculate_useful_gains_per_year
       (map_values fst [(4%Z, (Fin 100, Fin 12))])
       (map_values snd [(4%Z, (Fin 100, Fin 12))])
       (combine Htuse.months
          [Fin 0.63; NaN; Fin 1.7; Fin 2.35; Fin 2.96; Fin 2.99;
           Fin 2.79; Fin 2.54; Fin 1.99; Fin 1.37; NaN; Fin 0.55])
       Htuse.default_light_gain_value)
    (map_values
       (fun d =>
          (snd d / Fin 6
           * Fin (HtSpec.sum_over Htuse.months
                    (fun m =>
                       (finite_part
                          (get NaN m
                             (combine Htuse.months
                                [Fin 0.63; NaN; Fin 1.7; Fin 2.35; Fin 2.96;
                                 Fin 2.99; Fin 2.79; Fin 2.54; Fin 1.99;
                                 Fin 1.37; NaN; Fin 0.55]))
                        * month_value Htuse.UTILISATION_FACTOR m)%Q))
           * Fin 1000 / Fin 24
           + fst d * Htuse.default_light_gain_value)%float)
       [(4%Z, (Fin 100, Fin 12))]).
Proof.
  apply (@missing_solar_gain_counts_as_zero (float * float)
           [(4%Z, (Fin 100, Fin 12))] fst snd
           [Fin 0.63; NaN; Fin 1.7; Fin 2.35; Fin 2.96; Fin 2.99;
            Fin 2.79; Fin 2.54; Fin 1.99; Fin 1.37; NaN; Fin 0.55]
           Htuse.default_light_gain_value).
  reflexivity.
Defined.

(** ** Edge behaviour of the ventilation component *)

(** X20.  A permeability test result that is missing is taken as not
    available: on a table with accepted categories such a dwelling gets the
    theoretical sum. *)
Theorem missing_permeability_uses_theoretical_sum (t : Stock.table) :
  Forall (fun d => In (Stock.structure_type d)
                     Vent.acceptable_structure_types) (values t) ->
  Forall (fun d => In (Stock.is_floor_suspended d)
                     Vent.acceptable_suspended_floor_types) (values t) ->
  exists out,
    Stock.calculate_infiltration_rate_due_to_structure t = inr out
    /\ Forall2
         (fun d v =>
            Stock.permeability_test_result d = NaN ->
            feq v (Spec.theoretical_structure d))
         (values t) (values out).
Proof.
  intros Hs Hf. rewrite structure_table.
  pose proof (proj2 (forallb_accepted_Forall _ _ _) Hs) as Hsb.
  pose proof (proj2 (forallb_accepted_Forall _ _ _) Hf) as Hfb.
  unfold structure_type_ok, suspended_floor_ok. rewrite Hsb, Hfb.
  cbn [negb]. eexists. split; [reflexivity|].
  rewrite values_of_array. apply Forall2_map_r_in.
  intros d Hd Hnan. rewrite Forall_forall in Hs, Hf.
  unfold Dwelling.structure. rewrite Hnan. cbn [gt].
  apply theoretical_spec; [apply Hs | apply Hf]; exact Hd.
Qed.

Lemma missing_permeability_uses_theoretical_sum_witness :
  exists out,
    Stock.calculate_infiltration_rate_due_to_structure
      [(0%Z, Examples.tested);
       (1%Z, {| Stock.no_sides_sheltered := Fin 2;
                Stock.building_volume := Fin 300;
                Stock.no_chimneys := Fin 1;
                Stock.no_open_flues := Fin 0;
                Stock.no_fans := Fin 2;
                Stock.no_room_heaters := Fin 0;
                Stock.is_draught_lobby := "NO";
                Stock.permeability_test_result := NaN;
                Stock.no_storeys := Fin 2;
                Stock.percentage_draught_stripped := Fin 50;
                Stock.is_floor_suspended := "sealed";
                Stock.structure_type := "concrete";
                Stock.ventilation_method := "natural_ventilation";
                Stock.heat_exchanger_efficiency := Fin 0;
                Stock.infiltration_rate := Fin 0.8 |})]
    = inr out
    /\ Forall2
         (fun d v =>
            Stock.permeability_test_result d = NaN ->
            feq v (Spec.theoretical_structure d))
         (values
            [(0%Z, Examples.tested);
             (1%Z, {| Stock.no_sides_sheltered := Fin 2;
                      Stock.building_volume := Fin 300;
                      Stock.no_chimneys := Fin 1;
                      Stock.no_open_flues := Fin 0;
                      Stock.no_fans := Fin 2;
                      Stock.no_room_heaters := Fin 0;
                      Stock.is_draught_lobby := "NO";
                      Stock.permeability_test_result := NaN;
                      Stock.no_storeys := Fin 2;
                      Stock.percentage_draught_stripped := Fin 50;
                      Stock.is_floor_suspended := "sealed";
                      Stock.structure_type := "concrete";
                      Stock.ventilation_method := "natural_ventilation";
                      Stock.heat_exchanger_efficiency := Fin 0;
                      Stock.infiltration_rate := Fin 0.8 |})])
         (values out).
Proof.
  apply missing_permeability_uses_theoretical_sum.
  - repeat (constructor; [cbn; auto 10|]). constructor.
  - repeat (constructor; [cbn; auto 10|]). constructor.
Defined.

Lemma strictly_sorted_of_sorted_NoDup {A} (s : Series Z A) :
  StronglySorted label_le s -> NoDup (index s) -> StronglySorted label_lt s.
Proof.
  induction 1 as [|r s Hs IH Hr]; intros Hnd; [constructor|].
  simpl in Hnd. inversion Hnd as [|x l Hnotin Hnd']; subst.
  constructor; [apply IH, Hnd'|].
  rewrite Forall_forall in *. intros r' Hr'.
  specialize (Hr r' Hr'). unfold label_le, label_lt in *.
  assert (fst r <> fst r').
  { intros E. apply Hnotin. rewrite E. unfold index. apply in_map, Hr'. }
  lia.
Qed.

(** X21.  Stage 4 does not depend on the order of the rows: two tables
    with accepted methods and distinct labels that hold the same rows in
    different orders get the same result. *)
Theorem effective_air_rate_change_ignores_row_order (t1 t2 : Stock.table) :
  Permutation t1 t2 -> NoDup (index t1) ->
  Forall (fun d => In (Stock.ventilation_method d)
                     Vent.acceptable_ventilation_methods) (values t1) ->
  Stock.calculate_effective_air_rate_change t1
  = Stock.calculate_effective_air_rate_change t2
  /\ ~ raises (Stock.calculate_effective_air_rate_change t1).
Proof.
  intros Hp Hnd Hok1.
  assert (Hok2 : Forall (fun d => In (Stock.ventilation_method d)
                     Vent.acceptable_ventilation_methods) (values t2)).
  { eapply Permutation_Forall; [|exact Hok1].
    unfold values. apply Permutation_map, Hp. }
  rewrite !effective_table.
  pose proof (proj2 (forallb_accepted_Forall _ _ _) Hok1) as Hb1.
  pose proof (proj2 (forallb_accepted_Forall _ _ _) Hok2) as Hb2.
  unfold ventilation_method_ok. rewrite Hb1, Hb2. cbn [negb].
  split; [|apply not_raises_inr].
  unfold ret. f_equal.
  assert (Hp12 : Permutation (concat (effective_groups t1))
                   (concat (effective_groups t2))).
  { rewrite (effective_groups_perm _ Hok1), (effective_groups_perm _ Hok2).
    unfold map_values. apply Permutation_map, Hp. }
  apply sorted_perm_unique.
  - apply sort_index_sorted.
  - apply strictly_sorted_of_sorted_NoDup; [apply sort_index_sorted|].
    eapply Permutation_NoDup; [|exact Hnd].
    rewrite <- (index_map_values Dwelling.effective t1).
    unfold index. apply Permutation_map.
    rewrite sort_index_perm, <- Hp12.
    apply Permutation_sym, effective_groups_perm, Hok1.
  - rewrite !sort_index_perm. exact Hp12.
Qed.

Lemma effective_air_rate_change_ignores_row_order_witness :
  Stock.calculate_effective_air_rate_change
    [(7%Z, Examples.terrace); (3%Z, Examples.tested)]
  = Stock.calculate_effective_air_rate_change
      [(3%Z, Examples.tested); (7%Z, Examples.terrace)]
  /\ ~ raises (Stock.calculate_effective_air_rate_change
                 [(7%Z, Examples.terrace); (3%Z, Examples.tested)]).
Proof.
  apply effective_air_rate_change_ignores_row_order.
  - apply perm_swap.
  - repeat (constructor; [cbn; intros Hin;
                          repeat (destruct Hin as [Hin|Hin];
                                  [discriminate Hin|]); exact Hin|]).
    constructor.
  - repeat (constructor; [cbn; auto 10|]). constructor.
Defined.

(** X22.  An empty population is no error for the ventilation component
    nor for the gains and heat-use formulas: each returns an empty
    Series. *)
Theorem empty_population_gives_empty_series :
  Stock.calculate_infiltration_rate [] = inr []
  /\ Stock.calculate_effective_air_rate_change [] = inr []
  /\ Vent.calculate_ventilation_heat_loss [] []
       Vent.default_ventilation_heat_loss_constant = []
  /\ Htuse.calculate_useful_gains_per_year [] []
       Htuse.MEAN_MONTHLY_SOLAR_GAINS Htuse.default_light_gain_value = []
  /\ Htuse.calculate_heat_use [] [] = [].
Proof.
  repeat split; reflexivity.
Qed.
